(** * Image-To-PDF: the document library and the draft session

    A shallow embedding of the library screen of the application
    (app/(tabs)/index.tsx and its sibling revision of the same screen),
    with the platform services it calls (file system, print service,
    alerts) modelled as an explicit world. *)

From Stdlib Require Import ZArith NArith QArith Qround Qabs String Ascii List Bool Lia.
From Stdlib Require Import DecimalString Lqa.
From Stdlib Require Import Sorting.Sorted Sorting.Permutation.
From stdpp Require Import base list strings sorting.

Local Open Scope string_scope.

(** ** The JavaScript fragment the screen relies on *)

Module JS.

(** A string is a sequence of UTF-16 code units; the model keeps the code
    units below 256, that is, the characters of Basic Latin and of the
    Latin-1 Supplement, which the functions below map to themselves. *)
Definition is_upper (c : ascii) : bool :=
  let n := nat_of_ascii c in (65 <=? n)%nat && (n <=? 90)%nat.

Definition is_lower (c : ascii) : bool :=
  let n := nat_of_ascii c in (97 <=? n)%nat && (n <=? 122)%nat.

Definition is_digit (c : ascii) : bool :=
  let n := nat_of_ascii c in (48 <=? n)%nat && (n <=? 57)%nat.

(** The capital letters of the Latin-1 Supplement, U+00C0 to U+00DE
    without the multiplication sign U+00D7. *)
Definition is_upper_latin1 (c : ascii) : bool :=
  let n := nat_of_ascii c in
  ((192 <=? n)%nat && (n <=? 214)%nat) || ((216 <=? n)%nat && (n <=? 222)%nat).

(** The lower case of a character: the small letter of a capital lies 32
    code points higher; every other character below 256 is its own lower
    case. *)
Definition lower_char (c : ascii) : ascii :=
  if is_upper c || is_upper_latin1 c then ascii_of_nat (nat_of_ascii c + 32)
  else c.

(** [String.prototype.toLowerCase] *)
Fixpoint toLowerCase (s : string) : string :=
  match s with
  | EmptyString => EmptyString
  | String c s' => String (lower_char c) (toLowerCase s')
  end.

(** [s.startsWith(p)] *)
Fixpoint startsWith (s p : string) : bool :=
  match p, s with
  | EmptyString, _ => true
  | String _ _, EmptyString => false
  | String b p', String a s' => Ascii.eqb a b && startsWith s' p'
  end.

(** [s.endsWith(p)]: [p] is [s] or a suffix of its tail. *)
Fixpoint endsWith (s p : string) : bool :=
  String.eqb s p ||
  match s with
  | EmptyString => false
  | String _ s' => endsWith s' p
  end.

(** [s.includes(p)]: [p] starts at some position of [s]. *)
Fixpoint includes (s p : string) : bool :=
  startsWith s p ||
  match s with
  | EmptyString => false
  | String _ s' => includes s' p
  end.

(** White space and line terminators below 256: tab, line feed, vertical
    tab, form feed, carriage return, space and the no-break space. *)
Definition is_space (c : ascii) : bool :=
  match nat_of_ascii c with
  | 9 | 10 | 11 | 12 | 13 | 32 | 160 => true
  | _ => false
  end.

Fixpoint trimStart (s : string) : string :=
  match s with
  | EmptyString => EmptyString
  | String c s' => if is_space c then trimStart s' else s
  end.

Fixpoint trimEnd (s : string) : string :=
  match s with
  | EmptyString => EmptyString
  | String c s' =>
      match trimEnd s' with
      | EmptyString => if is_space c then EmptyString else String c EmptyString
      | r => String c r
      end
  end.

(** [String.prototype.trim] *)
Definition trim (s : string) : string := trimEnd (trimStart s).

Fixpoint drop_chars (n : nat) (s : string) : string :=
  match n, s with
  | O, _ => s
  | S _, EmptyString => EmptyString
  | S n', String _ s' => drop_chars n' s'
  end.

(** [s.replace(pat, rep)] with a string pattern: the first occurrence only. *)
Fixpoint replace (s pat rep : string) : string :=
  if startsWith s pat then rep ++ drop_chars (String.length pat) s
  else match s with
       | EmptyString => EmptyString
       | String c s' => String c (replace s' pat rep)
       end.

(** A string in a boolean position: only the empty string is falsy. *)
Definition truthy (s : string) : bool :=
  match s with EmptyString => false | String _ _ => true end.

(** [a || b] on strings. *)
Definition or_else (a b : string) : string := if truthy a then a else b.

(** A value that is thrown: only its [message] is ever read. *)
Inductive Result (A : Type) : Type :=
| Ok (a : A)
| Throw (message : string).
Arguments Ok {A} a.
Arguments Throw {A} message.

(** [Math.round]: the nearest integer, halves towards plus infinity.
    Numbers are exact rationals here. *)
Definition Math_round (x : Q) : Z := Qfloor (x + (1 # 2)).

Definition Math_max (a b : Z) : Z := Z.max a b.
Definition Math_min (a b : Z) : Z := Z.min a b.

(** [arr.filter((x, i) => f x i)] *)
Fixpoint filter_from {A : Type} (f : A -> nat -> bool) (i : nat) (l : list A)
  : list A :=
  match l with
  | [] => []
  | x :: l' => if f x i then x :: filter_from f (S i) l' else filter_from f (S i) l'
  end.
Definition Array_filter {A : Type} (f : A -> nat -> bool) (l : list A) : list A :=
  filter_from f 0 l.

(** [arr.join('')] *)
Fixpoint join (l : list string) : string :=
  match l with
  | [] => EmptyString
  | s :: l' => s ++ join l'
  end.

(** [s.replace(/[^a-z0-9_\-]/gi, '_')]: every character outside the
    class is replaced. *)
Definition in_name_class (c : ascii) : bool :=
  is_lower c || is_upper c || is_digit c
  || Ascii.eqb c "_"%char || Ascii.eqb c "-"%char.

Fixpoint replace_outside_name_class (s : string) : string :=
  match s with
  | EmptyString => EmptyString
  | String c s' =>
      String (if in_name_class c then c else "_"%char)
             (replace_outside_name_class s')
  end.

(** A nullable string inside a template literal. *)
Definition tpl (s : option string) : string :=
  match s with Some v => v | None => "null" end.

Definition digit_char (d : N) : ascii := ascii_of_N (48 + d).

(** [x.toFixed(2)] for a number below 1e21: the nearest multiple of
    1/100, the larger one on a tie, with two decimals. *)
Definition toFixed2 (x : Q) : string :=
  let n := Z.to_N (Qfloor (Qabs x * 100 + (1 # 2))) in
  (if Qle_bool 0 x then EmptyString else "-")
  ++ NilEmpty.string_of_uint (N.to_uint (n / 100))
  ++ "."
  ++ String (digit_char (n mod 100 / 10)) (String (digit_char (n mod 10)) EmptyString).

(** Arrays that may hold [undefined] ([None]): reading outside the array
    gives [undefined], writing at or past the end extends the array, and
    a negative index names a property, not an element. *)
Definition item {A : Type} (l : list (option A)) (i : Z) : option A :=
  if (i <? 0)%Z then None
  else match l !! Z.to_nat i with Some v => v | None => None end.

Definition assign {A : Type} (l : list (option A)) (i : Z) (v : option A)
  : list (option A) :=
  if (i <? 0)%Z then l
  else
    let n := Z.to_nat i in
    if (n <? length l)%nat then <[n := v]> l
    else (l ++ replicate (n - length l) None ++ [v])%list.

End JS.

Import JS.

(** ** Arrays and promises *)

Section ArraySort.
Context {A : Type}.

(** [compareFn a b] is the number the JavaScript comparator returns:
    not positive when [a] may stay in front of [b]. *)
Variable compareFn : A -> A -> Q.

Definition in_front (a b : A) : Prop := Qle_bool (compareFn a b) 0 = true.

Fixpoint sort_insert (x : A) (l : list A) : list A :=
  match l with
  | [] => [x]
  | y :: l' =>
      if Qle_bool (compareFn x y) 0 then x :: y :: l'
      else y :: sort_insert x l'
  end.

(** [Array.prototype.sort(compareFn)]. The sort is stable, so for a
    consistent comparator its result does not depend on the algorithm;
    it is computed here by insertion from the right. *)
Definition Array_sort (l : list A) : list A := foldr sort_insert [] l.
End ArraySort.

Section PromiseAll.
Context {A : Type}.

(** The order in which the [n] promises of a batch settle, when the
    [i]-th one settles at time [delay i]. *)
Definition completion_order (delay : nat -> nat) (n : nat) : list nat :=
  Array_sort
    (fun i j => (inject_Z (Z.of_nat (delay i)) - inject_Z (Z.of_nat (delay j)))%Q)
    (seq 0 n).


(** The promises settle one after the other; a fulfilled one stores its
    value in the slot of its own index, the first rejected one rejects
    the whole batch. *)
Fixpoint settle (rs : list (Result A)) (order : list nat)
         (slots : list (option A)) : Result (list (option A)) :=
  match order with
  | [] => Ok slots
  | i :: rest =>
      match rs !! i with
      | Some (Ok v) => settle rs rest (<[i := Some v]> slots)
      | Some (Throw m) => Throw m
      | None => settle rs rest slots
      end
  end.

(** [await Promise.all(rs)] *)
Definition Promise_all (delay : nat -> nat) (rs : list (Result A))
  : Result (list A) :=
  match settle rs (completion_order delay (length rs))
               (replicate (length rs) None) with
  | Ok slots => Ok (omap id slots)
  | Throw m => Throw m
  end.
End PromiseAll.

(** ** The platform services *)

Module Expo.

Record FileData : Type := {
  data : string;
  size : N;                  (* bytes *)
  modificationTime : Q       (* seconds since the epoch *)
}.

(** What [getInfoAsync] resolves to. *)
Inductive FileInfo : Type :=
| NotFound                                   (* { exists: false } *)
| Found (size : N) (modificationTime : Q).   (* { exists: true, ... } *)

(** The world the screen runs in. The file system is an association
    list from uri to file in enumeration order. *)
Record World : Type := {
  fs : list (string * FileData);
  clock : Z;                                  (* Date.now(), milliseconds *)
  delay : nat -> nat;                         (* settling times of a batch *)
  listFault : option string;                  (* readDirectoryAsync rejects *)
  infoFault : string -> option string;        (* getInfoAsync rejects on a uri *)
  printService : string -> Result (string * FileData);
  alerts : list (string * string)             (* Alert.alert(title, message) *)
}.

Definition with_fs (w : World) (fs' : list (string * FileData)) : World :=
  {| fs := fs'; clock := clock w; delay := delay w; listFault := listFault w;
     infoFault := infoFault w; printService := printService w;
     alerts := alerts w |}.

Definition with_delay (w : World) (delay' : nat -> nat) : World :=
  {| fs := fs w; clock := clock w; delay := delay'; listFault := listFault w;
     infoFault := infoFault w; printService := printService w;
     alerts := alerts w |}.

(** [Alert.alert(title, message)] *)
Definition Alert_alert (title message : string) (w : World) : World :=
  {| fs := fs w; clock := clock w; delay := delay w; listFault := listFault w;
     infoFault := infoFault w; printService := printService w;
     alerts := (alerts w ++ [(title, message)])%list |}.

Fixpoint lookup_file (uri : string) (l : list (string * FileData))
  : option FileData :=
  match l with
  | [] => None
  | (u, f) :: l' => if String.eqb u uri then Some f else lookup_file uri l'
  end.

(** Writing a file: in place when the uri exists, else as a new entry. *)
Fixpoint store_file (uri : string) (f : FileData) (l : list (string * FileData))
  : list (string * FileData) :=
  match l with
  | [] => [(uri, f)]
  | (u, g) :: l' =>
      if String.eqb u uri then (u, f) :: l' else (u, g) :: store_file uri f l'
  end.

Fixpoint remove_file (uri : string) (l : list (string * FileData))
  : list (string * FileData) :=
  match l with
  | [] => []
  | (u, g) :: l' =>
      if String.eqb u uri then remove_file uri l' else (u, g) :: remove_file uri l'
  end.

Fixpoint strip_prefix (p s : string) : option string :=
  match p, s with
  | EmptyString, _ => Some s
  | String _ _, EmptyString => None
  | String a p', String b s' =>
      if Ascii.eqb a b then strip_prefix p' s' else None
  end.

(** The name under which [uri] is listed in the directory [dir], if it
    lies directly in it. *)
Definition entry_name (dir uri : string) : option string :=
  match strip_prefix dir uri with
  | Some n => if truthy n && negb (includes n "/") then Some n else None
  | None => None
  end.

Definition readDirectoryAsync (dir : string) (w : World) : Result (list string) :=
  match listFault w with
  | Some m => Throw m
  | None => Ok (omap (fun e => entry_name dir (fst e)) (fs w))
  end.

Definition getInfoAsync (uri : string) (w : World) : Result FileInfo :=
  match infoFault w uri with
  | Some m => Throw m
  | None =>
      Ok match lookup_file uri (fs w) with
         | Some f => Found (size f) (modificationTime f)
         | None => NotFound
         end
  end.

(** [readAsStringAsync(uri, { encoding: 'base64' })]: the content of a
    file is kept in its base64 form. The messages of the platform's
    rejections stand for whatever the platform reports. *)
Definition readAsStringAsync (uri : string) (w : World) : Result string :=
  match lookup_file uri (fs w) with
  | Some f => Ok (data f)
  | None => Throw ("File '" ++ uri ++ "' is not readable")
  end.

(** [copyAsync({ from, to })] overwrites an existing destination; the
    copy is a file written now. *)
Definition copyAsync (from to : string) (w : World) : Result unit * World :=
  match lookup_file from (fs w) with
  | Some f =>
      let copy := {| data := data f; size := size f;
                     modificationTime := (inject_Z (clock w) / 1000)%Q |} in
      (Ok tt, with_fs w (store_file to copy (fs w)))
  | None => (Throw ("File '" ++ from ++ "' could not be copied"), w)
  end.

(** [deleteAsync(uri)], without the idempotent option. *)
Definition deleteAsync (uri : string) (w : World) : Result unit * World :=
  match lookup_file uri (fs w) with
  | Some _ => (Ok tt, with_fs w (remove_file uri (fs w)))
  | None => (Throw ("File '" ++ uri ++ "' could not be deleted"), w)
  end.

(** [Print.printToFileAsync({ html })]: the service renders the page
    description into a file of its own choosing. *)
Definition printToFileAsync (html : string) (w : World) : Result string * World :=
  match printService w html with
  | Ok (uri, f) => (Ok uri, with_fs w (store_file uri f (fs w)))
  | Throw m => (Throw m, w)
  end.

(** Awaited calls run one after the other on the world; a rejection
    skips the rest of the [try] block. *)
Definition Task (A : Type) : Type := World -> Result A * World.

Definition bind {A B : Type} (m : Task A) (k : A -> Task B) : Task B :=
  fun w =>
    match m w with
    | (Ok a, w') => k a w'
    | (Throw e, w') => (Throw e, w')
    end.

(** A call that only reads the world. *)
Definition reading {A : Type} (f : World -> Result A) : Task A :=
  fun w => (f w, w).

End Expo.

Notation "'await' x <- m 'in' k" := (Expo.bind m (fun x => k))
  (at level 10, x name, m at level 100, k at level 200).


(** ** The library screen, app/(tabs)/index.tsx *)

Module Index.
Import Expo.

Record PdfDoc : Type := {
  id : string;
  name : string;
  date : string;
  size : string;
  uri : string;
  timestamp : Q
}.

(** The device the screen runs on. *)
Record Device : Type := {
  documentDirectory : option string;     (* FileSystem.documentDirectory *)
  toLocaleDateString : Q -> string;      (* of the Date at that many ms *)
  SCREEN_WIDTH : Q                       (* Dimensions.get('window').width *)
}.

Definition GRID_PADDING : Q := 16.
Definition GAP : Q := 12.
Definition ITEM_WIDTH (dev : Device) : Q :=
  (SCREEN_WIDTH dev - (GRID_PADDING * 2) - GAP) / 2.

(** The [useState] cells of [LibraryScreen]; [statusIdx] only drives the
    progress caption and is left out. *)
Record State : Type := {
  pdfs : list PdfDoc;
  filteredPdfs : list PdfDoc;
  searchQuery : string;
  isLoadingLibrary : bool;
  isRefreshing : bool;
  selectedImages : list string;
  isProcessing : bool;
  showDraftModal : bool;
  pdfName : string;
  isRenameModalVisible : bool;
  renamingItem : option PdfDoc;
  newFileName : string
}.

Definition setPdfs (v : list PdfDoc) (st : State) : State :=
  {| pdfs := v; filteredPdfs := filteredPdfs st; searchQuery := searchQuery
     st; isLoadingLibrary := isLoadingLibrary st; isRefreshing :=
     isRefreshing st; selectedImages := selectedImages st; isProcessing :=
     isProcessing st; showDraftModal := showDraftModal st; pdfName :=
     pdfName st; isRenameModalVisible := isRenameModalVisible st;
     renamingItem := renamingItem st; newFileName := newFileName st |}.

Definition setFilteredPdfs (v : list PdfDoc) (st : State) : State :=
  {| pdfs := pdfs st; filteredPdfs := v; searchQuery := searchQuery st;
     isLoadingLibrary := isLoadingLibrary st; isRefreshing := isRefreshing
     st; selectedImages := selectedImages st; isProcessing := isProcessing
     st; showDraftModal := showDraftModal st; pdfName := pdfName st;
     isRenameModalVisible := isRenameModalVisible st; renamingItem :=
     renamingItem st; newFileName := newFileName st |}.


Definition setIsLoadingLibrary (v : bool) (st : State) : State :=
  {| pdfs := pdfs st; filteredPdfs := filteredPdfs st; searchQuery :=
     searchQuery st; isLoadingLibrary := v; isRefreshing := isRefreshing
     st; selectedImages := selectedImages st; isProcessing := isProcessing
     st; showDraftModal := showDraftModal st; pdfName := pdfName st;
     isRenameModalVisible := isRenameModalVisible st; renamingItem :=
     renamingItem st; newFileName := newFileName st |}.

Definition setIsRefreshing (v : bool) (st : State) : State :=
  {| pdfs := pdfs st; filteredPdfs := filteredPdfs st; searchQuery :=
     searchQuery st; isLoadingLibrary := isLoadingLibrary st; isRefreshing
     := v; selectedImages := selectedImages st; isProcessing :=
     isProcessing st; showDraftModal := showDraftModal st; pdfName :=
     pdfName st; isRenameModalVisible := isRenameModalVisible st;
     renamingItem := renamingItem st; newFileName := newFileName st |}.

Definition setSelectedImages (v : list string) (st : State) : State :=
  {| pdfs := pdfs st; filteredPdfs := filteredPdfs st; searchQuery :=
     searchQuery st; isLoadingLibrary := isLoadingLibrary st; isRefreshing
     := isRefreshing st; selectedImages := v; isProcessing := isProcessing
     st; showDraftModal := showDraftModal st; pdfName := pdfName st;
     isRenameModalVisible := isRenameModalVisible st; renamingItem :=
     renamingItem st; newFileName := newFileName st |}.

Definition setIsProcessing (v : bool) (st : State) : State :=
  {| pdfs := pdfs st; filteredPdfs := filteredPdfs st; searchQuery :=
     searchQuery st; isLoadingLibrary := isLoadingLibrary st; isRefreshing
     := isRefreshing st; selectedImages := selectedImages st; isProcessing
     := v; showDraftModal := showDraftModal st; pdfName := pdfName st;
     isRenameModalVisible := isRenameModalVisible st; renamingItem :=
     renamingItem st; newFileName := newFileName st |}.

Definition setShowDraftModal (v : bool) (st : State) : State :=
  {| pdfs := pdfs st; filteredPdfs := filteredPdfs st; searchQuery :=
     searchQuery st; isLoadingLibrary := isLoadingLibrary st; isRefreshing
     := isRefreshing st; selectedImages := selectedImages st; isProcessing
     := isProcessing st; showDraftModal := v; pdfName := pdfName st;
     isRenameModalVisible := isRenameModalVisible st; renamingItem :=
     renamingItem st; newFileName := newFileName st |}.

Definition setPdfName (v : string) (st : State) : State :=
  {| pdfs := pdfs st; filteredPdfs := filteredPdfs st; searchQuery :=
     searchQuery st; isLoadingLibrary := isLoadingLibrary st; isRefreshing
     := isRefreshing st; selectedImages := selectedImages st; isProcessing
     := isProcessing st; showDraftModal := showDraftModal st; pdfName := v;
     isRenameModalVisible := isRenameModalVisible st; renamingItem :=
     renamingItem st; newFileName := newFileName st |}.

Definition setIsRenameModalVisible (v : bool) (st : State) : State :=
  {| pdfs := pdfs st; filteredPdfs := filteredPdfs st; searchQuery :=
     searchQuery st; isLoadingLibrary := isLoadingLibrary st; isRefreshing
     := isRefreshing st; selectedImages := selectedImages st; isProcessing
     := isProcessing st; showDraftModal := showDraftModal st; pdfName :=
     pdfName st; isRenameModalVisible := v; renamingItem := renamingItem
     st; newFileName := newFileName st |}.

Definition setRenamingItem (v : option PdfDoc) (st : State) : State :=
  {| pdfs := pdfs st; filteredPdfs := filteredPdfs st; searchQuery :=
     searchQuery st; isLoadingLibrary := isLoadingLibrary st; isRefreshing
     := isRefreshing st; selectedImages := selectedImages st; isProcessing
     := isProcessing st; showDraftModal := showDraftModal st; pdfName :=
     pdfName st; isRenameModalVisible := isRenameModalVisible st;
     renamingItem := v; newFileName := newFileName st |}.

Definition setNewFileName (v : string) (st : State) : State :=
  {| pdfs := pdfs st; filteredPdfs := filteredPdfs st; searchQuery :=
     searchQuery st; isLoadingLibrary := isLoadingLibrary st; isRefreshing
     := isRefreshing st; selectedImages := selectedImages st; isProcessing
     := isProcessing st; showDraftModal := showDraftModal st; pdfName :=
     pdfName st; isRenameModalVisible := isRenameModalVisible st;
     renamingItem := renamingItem st; newFileName := v |}.

Section Screen.
Variable dev : Device.

Definition applyFilter (query : string) (data : list PdfDoc) (st : State)
  : State :=
  if negb (truthy query) then setFilteredPdfs data st
  else setFilteredPdfs
         (List.filter
            (fun p => includes (toLowerCase (name p)) (toLowerCase query))
            data)
         st.

(** The body of the [pdfFiles.map(async (fileName) => ...)] callback:
    a failed metadata read is caught per file. *)
Definition fileEntry (docDir fileName : string) (w : World) : Result PdfDoc :=
  let fileUri := docDir ++ fileName in
  match getInfoAsync fileUri w with
  | Ok info =>
      let '(size, timestamp) :=
        match info with
        | Found sz mt =>
            (toFixed2 (inject_Z (Z.of_N sz) / (1024 * 1024)) ++ " MB",
             if Qeq_bool mt 0 then inject_Z (clock w) / 1000 else mt)
        | NotFound => ("0 MB", 0)
        end%Q in
      Ok {| id := fileName; name := fileName;
            date := toLocaleDateString dev (timestamp * 1000);
            size := size; uri := fileUri; timestamp := timestamp |}
  | Throw _ =>
      Ok {| id := fileName; name := fileName; date := "Error";
            size := "0 MB"; uri := fileUri; timestamp := 0 |}
  end.

Definition loadLibrary_finally (st : State) : State :=
  setIsRefreshing false (setIsLoadingLibrary false st).

Definition loadLibrary (showSpinner : bool) (st : State) (w : World) : State :=
  let st := if showSpinner then setIsLoadingLibrary true st else st in
  match documentDirectory dev with
  | None => loadLibrary_finally st
  | Some docDir =>
      if negb (truthy docDir) then loadLibrary_finally st
      else
        match readDirectoryAsync docDir w with
        | Throw _ => loadLibrary_finally st
        | Ok files =>
            let pdfFiles :=
              List.filter (fun file => endsWith (toLowerCase file) ".pdf") files in
            match Promise_all (delay w)
                    (map (fun fileName => fileEntry docDir fileName w) pdfFiles) with
            | Throw _ => loadLibrary_finally st
            | Ok pdfDocs =>
                let sorted :=
                  Array_sort (fun a b => timestamp b - timestamp a)%Q pdfDocs in
                loadLibrary_finally
                  (applyFilter (searchQuery st) sorted (setPdfs sorted st))
            end
        end
  end.

Definition confirmRename (st : State) (w : World) : State * World :=
  match renamingItem st with
  | None => (st, w)
  | Some item =>
      if negb (truthy (trim (newFileName st))) then (st, w)
      else
        let newNameWithExt := trim (newFileName st) ++ ".pdf" in
        let docDir := documentDirectory dev in
        let newUri := tpl docDir ++ newNameWithExt in
        match copyAsync (uri item) newUri w with
        | (Ok _, w1) =>
            match deleteAsync (uri item) w1 with
            | (Ok _, w2) =>
                (loadLibrary false (setIsRenameModalVisible false st) w2, w2)
            | (Throw _, w2) =>
                (st, Alert_alert "Error" "Could not rename file." w2)
            end
        | (Throw _, w1) => (st, Alert_alert "Error" "Could not rename file." w1)
        end
  end.

Definition startRename (item : PdfDoc) (st : State) : State :=
  setIsRenameModalVisible true
    (setNewFileName (replace (name item) ".pdf" EmptyString)
       (setRenamingItem (Some item) st)).

Definition removeImage (index : Z) (st : State) : State :=
  let newImages :=
    Array_filter (fun _ i => negb (Z.of_nat i =? index)%Z) (selectedImages st) in
  let st := setSelectedImages newImages st in
  if (length newImages =? 0)%nat then setShowDraftModal false st else st.

Definition swapImages (fromIdx toIdx : Z) (st : State) : State :=
  let len := Z.of_nat (length (selectedImages st)) in
  if (fromIdx =? toIdx)%Z || (fromIdx <? 0)%Z || (toIdx <? 0)%Z
     || (len <=? fromIdx)%Z || (len <=? toIdx)%Z
  then st
  else
    let newImages := selectedImages st in
    match newImages !! Z.to_nat toIdx, newImages !! Z.to_nat fromIdx with
    | Some a, Some b =>
        setSelectedImages
          (<[Z.to_nat toIdx := b]> (<[Z.to_nat fromIdx := a]> newImages)) st
    | _, _ => st   (* not reached: both indices are inside the array *)
    end.


Definition nl : string := String "010"%char EmptyString.
Definition dq : string := String "034"%char EmptyString.

Definition html_head : string :=
  nl ++ "        <!DOCTYPE html><html><head><style>"
  ++ nl ++ "          @page { size: A4; margin: 0; }"
  ++ nl ++ "          body { margin: 0; background: #fff; }"
  ++ nl ++ "          .page { width: 100%; height: 100vh; display: flex; justify-content: center; align-items: center; page-break-after: always; }"
  ++ nl ++ "          img { max-width: 95%; max-height: 95%; object-fit: contain; }"
  ++ nl ++ "        </style></head><body>"
  ++ nl ++ "          ".

Definition page_div (base64 : string) : string :=
  "<div class=" ++ dq ++ "page" ++ dq ++ "><img src=" ++ dq ++ base64 ++ dq
  ++ " /></div>".

Definition html_tail : string :=
  nl ++ "        </body></html>" ++ nl ++ "      ".

Definition htmlContent (base64Images : list string) : string :=
  html_head ++ join (map page_div base64Images) ++ html_tail.

(** The callback of [selectedImages.map(async (uri) => ...)]. *)
Definition encodeImage (uri : string) (w : World) : Result string :=
  match readAsStringAsync uri w with
  | Ok base64 => Ok ("data:image/jpeg;base64," ++ base64)
  | Throw m => Throw m
  end.

Definition finalName (pdfName : string) : string :=
  let cleanName := or_else (replace_outside_name_class pdfName) "Doc" in
  cleanName ++ ".pdf".

(** The awaited calls of the [try] block of [generatePdf], up to the
    copy into the documents directory. *)
Definition generatePdf_try (st : State) : Task unit :=
  await base64Images <-
    reading (fun w =>
      Promise_all (delay w) (map (fun uri => encodeImage uri w) (selectedImages st))) in
  await tempUri <- printToFileAsync (htmlContent base64Images) in
  copyAsync tempUri (tpl (documentDirectory dev) ++ finalName (pdfName st)).

Definition generatePdf (st : State) (w : World) : State * World :=
  if (length (selectedImages st) =? 0)%nat then (st, w)
  else
    let st := setIsProcessing true st in
    match generatePdf_try st w with
    | (Ok _, w1) =>
        let st := loadLibrary true st w1 in
        (setIsProcessing false (setSelectedImages [] (setShowDraftModal false st)),
         w1)
    | (Throw message, w1) =>
        (setIsProcessing false st, Alert_alert "Failed" message w1)
    end.

(** [dragGesture.onEnd] of the [DraggableItem] at [index] among
    [total] items; [translationX], [translationY] are the event's.
    Numbers are exact rationals; the divisors are positive for every
    window wider than 20. *)
Definition onEnd (translationX translationY : Q) (index total : Z) (st : State)
  : State :=
  let colShift := Math_round (translationX / (ITEM_WIDTH dev + GAP)) in
  let rowShift := Math_round (translationY / (ITEM_WIDTH dev * (125 # 100) + GAP)) in
  let indexShift := (colShift + (rowShift * 2))%Z in
  let targetIndex :=
    Math_max 0 (Math_min (total - 1) (index + indexShift))%Z in
  if negb (targetIndex =? index)%Z then swapImages index targetIndex st
  else st.

(** The cell of the image grid, from the stylesheet: the container is
    [ITEM_WIDTH] wide and the card keeps [aspectRatio: 0.8]. *)
Definition aspectRatio : Q := 8 # 10.
Definition cellHeight : Q := ITEM_WIDTH dev / aspectRatio.

(** [onRefresh] of the pull-to-refresh control. *)
Definition onRefresh (st : State) (w : World) : State :=
  loadLibrary false (setIsRefreshing true st) w.



(** What [launchImageLibraryAsync] resolves to: canceled, or the uris of
    the picked assets. *)
Inductive PickerResult : Type :=
| Canceled
| Assets (uris : list string).

(** A non-negative integer inside a template literal. *)
Definition decimal (n : N) : string := NilEmpty.string_of_uint (N.to_uint n).

(** [pickImages(isAppending)], with the permission [status], the picker's
    [result] and the local time of day read by [new Date()]. *)
Definition pickImages (isAppending : bool) (status : string) (result : PickerResult)
           (hours minutes seconds : N) (st : State) (w : World) : State * World :=
  if negb (String.eqb status "granted") then
    (st, Alert_alert "Permission needed" "Access to photos is required." w)
  else
    match result with
    | Canceled => (st, w)
    | Assets uris =>
        if isAppending then
          (setSelectedImages (selectedImages st ++ uris)%list st, w)
        else
          let st := setSelectedImages uris st in
          let dateStr := "Doc_" ++ decimal hours ++ decimal minutes ++ decimal seconds in
          (setShowDraftModal true (setPdfName dateStr st), w)
    end.

End Screen.
End Index.

(** ** The sibling revision of the library screen

    The second copy of [LibraryScreen] kept in the repository: the same
    library and draft, with an in-place rename that checks the target
    name, and without the guards of [swapImages]. *)

Module Sibling.
Import Expo.
Import (coercions) Index.

Abbreviation PdfDoc := Index.PdfDoc.
Abbreviation Device := Index.Device.

Definition GRID_PADDING : Q := 20.
Definition GAP : Q := 12.
Definition ITEM_WIDTH (dev : Device) : Q :=
  (Index.SCREEN_WIDTH dev - (GRID_PADDING * 2) - GAP) / 2.

(** The [useState] cells the modelled handlers touch; [selectedImages]
    may come to hold [undefined]. *)
Record State : Type := {
  pdfs : list PdfDoc;
  isLoadingLibrary : bool;
  isRefreshing : bool;
  selectedImages : list (option string);
  editingId : option string;
  editingValue : string
}.

Definition setPdfs (v : list PdfDoc) (st : State) : State :=
  {| pdfs := v; isLoadingLibrary := isLoadingLibrary st; isRefreshing :=
     isRefreshing st; selectedImages := selectedImages st; editingId :=
     editingId st; editingValue := editingValue st |}.

Definition setIsLoadingLibrary (v : bool) (st : State) : State :=
  {| pdfs := pdfs st; isLoadingLibrary := v; isRefreshing := isRefreshing
     st; selectedImages := selectedImages st; editingId := editingId st;
     editingValue := editingValue st |}.

Definition setIsRefreshing (v : bool) (st : State) : State :=
  {| pdfs := pdfs st; isLoadingLibrary := isLoadingLibrary st; isRefreshing
     := v; selectedImages := selectedImages st; editingId := editingId st;
     editingValue := editingValue st |}.

Definition setSelectedImages (v : list (option string)) (st : State) : State :=
  {| pdfs := pdfs st; isLoadingLibrary := isLoadingLibrary st; isRefreshing
     := isRefreshing st; selectedImages := v; editingId := editingId st;
     editingValue := editingValue st |}.

Definition setEditingId (v : option string) (st : State) : State :=
  {| pdfs := pdfs st; isLoadingLibrary := isLoadingLibrary st; isRefreshing
     := isRefreshing st; selectedImages := selectedImages st; editingId :=
     v; editingValue := editingValue st |}.

Definition setEditingValue (v : string) (st : State) : State :=
  {| pdfs := pdfs st; isLoadingLibrary := isLoadingLibrary st; isRefreshing
     := isRefreshing st; selectedImages := selectedImages st; editingId :=
     editingId st; editingValue := v |}.

Section Screen.
Variable dev : Device.

(** The callback of [pdfFiles.map]: here a failed metadata read
    rejects. *)
Definition fileEntry (docDir fileName : string) (w : World) : Result PdfDoc :=
  let fileUri := docDir ++ fileName in
  match getInfoAsync fileUri w with
  | Ok info =>
      let '(size, timestamp) :=
        match info with
        | Found sz mt =>
            (toFixed2 (inject_Z (Z.of_N sz) / (1024 * 1024)) ++ " MB",
             if Qeq_bool mt 0 then inject_Z (clock w) / 1000 else mt)
        | NotFound => ("0 MB", 0)
        end%Q in
      Ok {| Index.id := fileName; Index.name := fileName;
            Index.date := Index.toLocaleDateString dev (timestamp * 1000);
            Index.size := size; Index.uri := fileUri;
            Index.timestamp := timestamp |}
  | Throw m => Throw m
  end.

Definition loadLibrary_finally (st : State) : State :=
  setIsRefreshing false (setIsLoadingLibrary false st).

Definition loadLibrary (showSpinner : bool) (st : State) (w : World) : State :=
  let st := if showSpinner then setIsLoadingLibrary true st else st in
  match Index.documentDirectory dev with
  | None => loadLibrary_finally st
  | Some docDir =>
      if negb (truthy docDir) then loadLibrary_finally st
      else
        match readDirectoryAsync docDir w with
        | Throw _ => loadLibrary_finally st
        | Ok files =>
            let pdfFiles :=
              List.filter (fun file => endsWith (toLowerCase file) ".pdf") files in
            match Promise_all (delay w)
                    (map (fun fileName => fileEntry docDir fileName w) pdfFiles) with
            | Throw _ => loadLibrary_finally st
            | Ok pdfDocs =>
                let sorted :=
                  Array_sort (fun a b => Index.timestamp b - Index.timestamp a)%Q
                             pdfDocs in
                loadLibrary_finally (setPdfs sorted st)
            end
        end
  end.

Definition swapImages (fromIdx toIdx : Z) (st : State) : State :=
  let newImages := selectedImages st in
  let a := item newImages toIdx in
  let b := item newImages fromIdx in
  setSelectedImages (assign (assign newImages fromIdx a) toIdx b) st.

Definition saveRename (doc : PdfDoc) (st : State) (w : World) : State * World :=
  let value := trim (editingValue st) in
  if negb (truthy value)
     || String.eqb value (replace (Index.name doc) ".pdf" EmptyString)
  then (setEditingId None st, w)
  else
    let newFileName := value ++ ".pdf" in
    let newUri := tpl (Index.documentDirectory dev) ++ newFileName in
    match getInfoAsync newUri w with
    | Ok (Found _ _) =>
        (setEditingId None st,
         Alert_alert "Error" "A file with this name already exists." w)
    | Ok NotFound =>
        match copyAsync (Index.uri doc) newUri w with
        | (Ok _, w1) =>
            match deleteAsync (Index.uri doc) w1 with
            | (Ok _, w2) => (setEditingId None (loadLibrary true st w2), w2)
            | (Throw _, w2) =>
                (setEditingId None st,
                 Alert_alert "Rename Failed" "Could not rename the file." w2)
            end
        | (Throw _, w1) =>
            (setEditingId None st,
             Alert_alert "Rename Failed" "Could not rename the file." w1)
        end
    | Throw _ =>
        (setEditingId None st,
         Alert_alert "Rename Failed" "Could not rename the file." w)
    end.

Definition onEnd (translationX translationY : Q) (index total : Z) (st : State)
  : State :=
  let colShift := Math_round (translationX / (ITEM_WIDTH dev + GAP)) in
  let rowShift := Math_round (translationY / (ITEM_WIDTH dev * (125 # 100) + GAP)) in
  let indexShift := (colShift + (rowShift * 2))%Z in
  let targetIndex :=
    Math_max 0 (Math_min (total - 1) (index + indexShift))%Z in
  if negb (targetIndex =? index)%Z then swapImages index targetIndex st
  else st.

Definition finalName (pdfName : string) : string :=
  or_else (trim pdfName) "Document" ++ ".pdf".

(** The sheet colours and image filters of the draft's options. *)
Inductive SheetColor : Type := Standard | Ivory | Slate | EcoGrey.

Definition hex (c : SheetColor) : string :=
  match c with
  | Standard => "#FFFFFF"
  | Ivory => "#FFFBF2"
  | Slate => "#2C3E50"
  | EcoGrey => "#F0F0F0"
  end.

Inductive ImageFilter : Type := none | bw | vivid.

Definition filterCss (f : ImageFilter) : string :=
  match f with
  | none => EmptyString
  | bw => "filter: grayscale(100%) contrast(1.5);"
  | vivid => "filter: saturate(1.5) contrast(1.2);"
  end.

(** The page description of this revision's [generatePdf]. *)
Definition htmlContent (selectedColor : SheetColor) (selectedFilter : ImageFilter)
           (base64Images : list string) : string :=
  Index.nl ++ "        <!DOCTYPE html><html><head><style>"
  ++ Index.nl ++ "          @page { size: A4; margin: 0; }"
  ++ Index.nl ++ "          body { margin: 0; background-color: " ++ hex selectedColor ++ "; }"
  ++ Index.nl ++ "          .page { width: 100vw; height: 100vh; display: flex; justify-content: center; align-items: center; page-break-after: always; }"
  ++ Index.nl ++ "          img { max-width: 90%; max-height: 90%; object-fit: contain; border-radius: 4px; box-shadow: 0 4px 12px rgba(0,0,0,0.15); " ++ filterCss selectedFilter ++ " }"
  ++ Index.nl ++ "        </style></head><body>"
  ++ Index.nl ++ "          "
  ++ join (map Index.page_div base64Images)
  ++ Index.html_tail.


(** The cell of the image grid in this revision's stylesheet. *)
Definition aspectRatio : Q := 75 # 100.
Definition cellHeight : Q := ITEM_WIDTH dev / aspectRatio.

(** The context menu cell of the screen. *)
Record ContextMenu : Type := {
  visible : bool;
  x : Q;
  y : Q;
  item : option PdfDoc
}.

(** [showContextMenu], for a press at ([pageX], [pageY]) in a window
    [SCREEN_HEIGHT] high. *)
Definition showContextMenu (SCREEN_HEIGHT : Q) (pageX pageY : Q) (doc : PdfDoc)
  : ContextMenu :=
  let menuHeight := 160%Q in
  let adjustedY :=
    (if negb (Qle_bool (pageY + menuHeight) (SCREEN_HEIGHT - 100))
     then pageY - menuHeight else pageY)%Q in
  let menuWidth := 200%Q in
  let adjustedX :=
    (if negb (Qle_bool (pageX + menuWidth) (Index.SCREEN_WIDTH dev - 20))
     then pageX - menuWidth else pageX)%Q in
  {| visible := true; x := adjustedX; y := adjustedY; item := Some doc |}.

End Screen.
End Sibling.

(** ** The settings screen, app/(tabs)/explore.tsx *)

Module Settings.
Import Expo.

Record State : Type := {
  storageSize : string;
  docCount : nat;
  hapticsEnabled : bool
}.

Definition setStorageSize (v : string) (st : State) : State :=
  {| storageSize := v; docCount := docCount st;
     hapticsEnabled := hapticsEnabled st |}.

Definition setDocCount (v : nat) (st : State) : State :=
  {| storageSize := storageSize st; docCount := v;
     hapticsEnabled := hapticsEnabled st |}.

Section Screen.
Variable dev : Index.Device.

(** The loop of [calculateStorage] over the remaining [pdfs], with the
    running [total]. *)
Fixpoint addSizes (docDir : string) (pdfs : list string) (total : N) (w : World)
  : Result N :=
  match pdfs with
  | [] => Ok total
  | file :: rest =>
      match getInfoAsync (docDir ++ file) w with
      | Ok (Found sz _) => addSizes docDir rest (total + sz) w
      | Ok NotFound => addSizes docDir rest total w
      | Throw m => Throw m
      end
  end.

Definition calculateStorage (st : State) (w : World) : State :=
  match Index.documentDirectory dev with
  | None => st
  | Some docDir =>
      if negb (truthy docDir) then st
      else
        match readDirectoryAsync docDir w with
        | Throw _ => st
        | Ok files =>
            let pdfs :=
              List.filter (fun f => endsWith (toLowerCase f) ".pdf") files in
            let st := setDocCount (length pdfs) st in
            match addSizes docDir pdfs 0 w with
            | Ok total =>
                setStorageSize
                  (toFixed2 (inject_Z (Z.of_N total) / (1024 * 1024)) ++ " MB") st
            | Throw _ => st
            end
        end
  end.

(** The loop of the Delete All button over the remaining [files]. *)
Fixpoint deleteAll (docDir : string) (files : list string) (w : World)
  : Result unit * World :=
  match files with
  | [] => (Ok tt, w)
  | file :: rest =>
      if endsWith (toLowerCase file) ".pdf" then
        match deleteAsync (docDir ++ file) w with
        | (Ok _, w1) => deleteAll docDir rest w1
        | (Throw m, w1) => (Throw m, w1)
        end
      else deleteAll docDir rest w
  end.

(** [handleClearLibrary]: the confirmation dialog, and the [onPress] of
    its Delete All button when [confirmed]; a rejection inside it is not
    caught and ends the handler. *)
Definition handleClearLibrary (confirmed : bool) (st : State) (w : World)
  : State * World :=
  let w :=
    Alert_alert "Clear All Documents"
      "This will permanently delete all generated PDF files. This action cannot be undone."
      w in
  if confirmed then
    match Index.documentDirectory dev with
    | None => (st, w)
    | Some docDir =>
        if negb (truthy docDir) then (st, w)
        else
          match readDirectoryAsync docDir w with
          | Throw _ => (st, w)
          | Ok files =>
              match deleteAll docDir files w with
              | (Ok _, w1) =>
                  (calculateStorage st w1,
                   Alert_alert "Success" "Library has been cleared." w1)
              | (Throw _, w1) => (st, w1)
              end
          end
    end
  else (st, w).

End Screen.
End Settings.

(** ** The properties the specification states *)

Module Spec.
Import Index.

(** [small] and [capital] are the two cases of one letter: [capital] is
    one of A to Z, U+00C0 to U+00D6 or U+00D8 to U+00DE, and [small] lies
    32 code points above it. *)
Definition cases_of_a_letter (small capital : ascii) : Prop :=
  nat_of_ascii small = nat_of_ascii capital + 32
  /\ (65 <= nat_of_ascii capital <= 90
      \/ 192 <= nat_of_ascii capital <= 214
      \/ 216 <= nat_of_ascii capital <= 222).

(** Two characters that differ at most in letter case. *)
Definition same_letter (a b : ascii) : Prop :=
  a = b \/ cases_of_a_letter a b \/ cases_of_a_letter b a.

(** Two strings that differ at most in the letter case of their
    characters. *)
Inductive same_ignoring_case : string -> string -> Prop :=
| same_empty : same_ignoring_case EmptyString EmptyString
| same_char (a b : ascii) (s t : string) :
    same_letter a b -> same_ignoring_case s t ->
    same_ignoring_case (String a s) (String b t).


(** A file name with the .pdf suffix, letter case ignored. *)
Definition pdf_suffixed (fileName : string) : Prop :=
  exists stem suffix,
    fileName = stem ++ suffix /\ same_ignoring_case suffix ".pdf".





(** The stages of a document creation. *)
Inductive Phase : Type := Idle | Reviewing | Converting.

Definition phase (st : State) : Phase :=
  if showDraftModal st then
    if isProcessing st then Converting else Reviewing
  else Idle.

(** The file names the conversion may write: a non-empty stem over
    letters, digits, underscore and hyphen, then .pdf. *)
Definition safe_file_name (fileName : string) : Prop :=
  exists stem,
    fileName = stem ++ ".pdf"
    /\ stem <> EmptyString
    /\ Forall (fun c => in_name_class c = true) (list_ascii_of_string stem).

(** The names [readDirectoryAsync] lists in the documents directory. *)
Definition listing (docDir : string) (w : Expo.World) : list string :=
  omap (fun e => Expo.entry_name docDir (fst e)) (Expo.fs w).

(** The listed names the library keeps. *)
Definition pdf_entries (docDir : string) (w : Expo.World) : list string :=
  List.filter (fun file => endsWith (toLowerCase file) ".pdf") (listing docDir w).

(** The document a failed metadata read leaves in the library. *)
Definition sentinel (docDir fileName : string) : PdfDoc :=
  {| id := fileName; name := fileName; date := "Error"; size := "0 MB";
     uri := docDir ++ fileName; timestamp := 0 |}.

(** The document [loadLibrary] derives for a listed file. *)
Definition entry (dev : Device) (docDir : string) (w : Expo.World)
           (fileName : string) : PdfDoc :=
  match fileEntry dev docDir fileName w with
  | Ok doc => doc
  | Throw _ => sentinel docDir fileName
  end.

(** refresh: the document list after [loadLibrary]. *)
Definition refresh (dev : Device) (w : Expo.World) (st : State) : list PdfDoc :=
  pdfs (loadLibrary dev false st w).

(** The modification time of the file behind a document. *)
Definition mtime_of (w : Expo.World) (doc : PdfDoc) : Q :=
  match Expo.lookup_file (uri doc) (Expo.fs w) with
  | Some file => Expo.modificationTime file
  | None => 0
  end.

Definition newest_first (key : PdfDoc -> Q) (docs : list PdfDoc) : Prop :=
  StronglySorted (fun a b => (key b <= key a)%Q) docs.

(** Every metadata read of a listed .pdf file succeeds and reports a
    modification time other than zero. *)
Definition plain_metadata (docDir : string) (w : Expo.World) : Prop :=
  forall fileName, fileName ∈ pdf_entries docDir w ->
    Expo.infoFault w (docDir ++ fileName) = None
    /\ forall file, Expo.lookup_file (docDir ++ fileName) (Expo.fs w) = Some file ->
                    ~ (Expo.modificationTime file == 0)%Q.

(** The timestamp the refresh derives for the file at [uri]: its
    modification time; the time of the clock, in seconds, when that is
    reported as 0; and 0 when the metadata read fails or finds no file. *)
Definition derived_timestamp (w : Expo.World) (uri : string) : Q :=
  match Expo.infoFault w uri, Expo.lookup_file uri (Expo.fs w) with
  | None, Some file =>
      if Qeq_bool (Expo.modificationTime file) 0
      then (inject_Z (Expo.clock w) / 1000)%Q
      else Expo.modificationTime file
  | _, _ => 0
  end.

(** Every metadata read of a listed .pdf file succeeds. *)
Definition reads_succeed (docDir : string) (w : Expo.World) : Prop :=
  forall fileName, fileName ∈ pdf_entries docDir w ->
    Expo.infoFault w (docDir ++ fileName) = None.

(** No listed .pdf file whose metadata read succeeds reports the
    modification time zero. *)
Definition no_zero_time (docDir : string) (w : Expo.World) : Prop :=
  forall fileName file, fileName ∈ pdf_entries docDir w ->
    Expo.infoFault w (docDir ++ fileName) = None ->
    Expo.lookup_file (docDir ++ fileName) (Expo.fs w) = Some file ->
    ~ (Expo.modificationTime file == 0)%Q.

(** refresh as the specification states it, for the directory contents
    of [w]: the .pdf entries, newest modification time first, and the same
    sequence on a second call with the directory unchanged. *)
Definition refresh_as_stated (dev : Device) (docDir : string) (w : Expo.World)
           (st : State) : Prop :=
  map name (refresh dev w st) ≡ₚ pdf_entries docDir w
  /\ newest_first (mtime_of w) (refresh dev w st)
  /\ forall w' st',
       Expo.fs w' = Expo.fs w -> Expo.listFault w' = None ->
       (forall u, Expo.infoFault w' u = Expo.infoFault w u) ->
       refresh dev w' st' = refresh dev w st.

(** The image source [encodeImage] makes of a base64 encoding. *)
Definition data_uri (base64 : string) : string := "data:image/jpeg;base64," ++ base64.

(** The number of page blocks of a page description: the places where the
    opening tag of a page starts. *)
Definition page_tag : string :=
  "<div class=" ++ Index.dq ++ "page" ++ Index.dq ++ ">".

Fixpoint occurrences (tag s : string) : nat :=
  (if startsWith s tag then 1 else 0)
  + match s with
    | EmptyString => 0
    | String _ s' => occurrences tag s'
    end.

Definition page_blocks (html : string) : nat := occurrences page_tag html.


(** [s] differs from [tag] at a position both have, so that no extension
    of [s] starts with [tag]. *)
Fixpoint diverges (s tag : string) : bool :=
  match s, tag with
  | String a s', String b tag' => if Ascii.eqb a b then diverges s' tag' else true
  | _, _ => false
  end.

(** No occurrence of [tag] starts inside [p], whatever follows [p]. *)
Fixpoint tag_never_starts (p tag : string) : bool :=
  match p with
  | EmptyString => true
  | String _ p' => diverges p tag && tag_never_starts p' tag
  end.

(** The text of [s] before the first occurrence of [stop]. *)
Fixpoint upto (stop s : string) : string :=
  if startsWith s stop then EmptyString
  else match s with
       | EmptyString => EmptyString
       | String c s' => String c (upto stop s')
       end.

(** What follows the first occurrence of [start] in [s]. *)
Fixpoint after (start s : string) : option string :=
  if startsWith s start then Some (drop_chars (String.length start) s)
  else match s with
       | EmptyString => None
       | String _ s' => after start s'
       end.

(** The pages of a page description, in the order of the document: a
    page reaches from its opening tag to the next closing [</div>]. *)
Fixpoint pages (html : string) : list string :=
  ((if startsWith html page_tag then [upto "</div>" html] else [])
   ++ match html with
      | EmptyString => []
      | String _ s' => pages s'
      end)%list.

(** The image of a page: the value of the [src] attribute of its first
    [img] element. *)
Definition image_source (page : string) : option string :=
  match after ("<img src=" ++ Index.dq) page with
  | Some rest => Some (upto Index.dq rest)
  | None => None
  end.

(** The image of each page of a page description. *)
Definition page_images (html : string) : list (option string) :=
  map image_source (pages html).

(** The characters of a base64 encoding. *)
Definition is_base64 (c : ascii) : bool :=
  is_upper c || is_lower c || is_digit c
  || Ascii.eqb c "+"%char || Ascii.eqb c "/"%char || Ascii.eqb c "="%char.

Definition base64_text (s : string) : Prop :=
  Forall (fun c => is_base64 c = true) (list_ascii_of_string s).

(** While the draft modal is open the draft holds an image. *)
Definition open_draft_holds_image (st : State) : Prop :=
  showDraftModal st = true -> selectedImages st <> [].

(** The size of a listed file, zero when the file is missing. *)
Definition size_of (docDir : string) (w : Expo.World) (fileName : string) : N :=
  match Expo.lookup_file (docDir ++ fileName) (Expo.fs w) with
  | Some file => Expo.size file
  | None => 0%N
  end.

(** The bytes the .pdf entries of the documents directory take. *)
Definition total_size (docDir : string) (w : Expo.World) : N :=
  foldr (fun fileName total => (size_of docDir w fileName + total)%N) 0%N
        (pdf_entries docDir w).

End Spec.

(** ** Sample devices, worlds and states *)

Module Sample.
Import Expo Index.

(** A device whose locale prints a date as the number of whole days since
    the epoch. *)
Definition device : Device :=
  {| documentDirectory := Some "file:///data/documents/";
     toLocaleDateString :=
       fun ms => "day " ++ NilEmpty.string_of_uint
                             (N.to_uint (Z.to_N (Qfloor (ms / 86400000))));
     SCREEN_WIDTH := 392 |}.

Definition docDir : string := "file:///data/documents/".

Definition file (content : string) (bytes : N) (mtime : Q) : FileData :=
  {| Expo.data := content; Expo.size := bytes; Expo.modificationTime := mtime |}.

Definition world (files : list (string * FileData)) (now : Z) : World :=
  {| fs := files; clock := now; delay := fun i => i; listFault := None;
     infoFault := fun _ => None;
     printService := fun html => Ok ("file:///data/cache/Print/out.pdf",
                                     file html (N.of_nat (String.length html)) (inject_Z now / 1000));
     alerts := [] |}.

Definition state (images : list string) (draftOpen : bool) (title : string) : State :=
  {| pdfs := []; filteredPdfs := []; searchQuery := EmptyString;
     isLoadingLibrary := false; isRefreshing := false;
     selectedImages := images; isProcessing := false;
     showDraftModal := draftOpen; pdfName := title;
     isRenameModalVisible := false; renamingItem := None;
     newFileName := EmptyString |}.

(** A directory in which one file reports the modification time zero. *)
Definition epoch_world : World :=
  world [("file:///data/documents/a.pdf", file "JVBERi0xLjQK" 2048 0);
         ("file:///data/documents/b.pdf", file "JVBERi0xLjcK" 4096 5)]
        100000.

(** Three pictures of the media library, and reads that settle in the
    reverse of the order they were issued in. *)
Definition draft_world : World :=
  {| fs := [("file:///data/cache/ImagePicker/A.jpg", file "/9j/4AAQSkZJRgABAQ" 14 1);
            ("file:///data/cache/ImagePicker/B.jpg", file "/9j/4BBRSkZJRgABAg" 14 2);
            ("file:///data/cache/ImagePicker/C.jpg", file "/9j/4CCSSkZJRgABAw" 14 3)];
     clock := 1700000000000; delay := fun i => 2 - i; listFault := None;
     infoFault := fun _ => None;
     printService := fun html => Ok ("file:///data/cache/Print/out.pdf",
                                     file html (N.of_nat (String.length html)) 1700000000);
     alerts := [] |}.

Definition draft : State :=
  state ["file:///data/cache/ImagePicker/A.jpg";
         "file:///data/cache/ImagePicker/B.jpg";
         "file:///data/cache/ImagePicker/C.jpg"] true "Holiday 2024".

(** The same, with a print service that fails. *)
Definition failing_world : World :=
  {| fs := fs draft_world; clock := clock draft_world; delay := delay draft_world;
     listFault := None; infoFault := fun _ => None;
     printService := fun _ => Throw "Printing did not complete";
     alerts := [] |}.

(** A library of two documents, and the rename dialog open on the first
    with the name of the second typed in. *)
Definition library_world : World :=
  world [("file:///data/documents/Doc1.pdf", file "JVBERi0xLjQKJcfs" 203776 1700000100);
         ("file:///data/documents/Doc2.pdf", file "JVBERi0xLjcKJeLj" 512000 1700000200)]
        1700000300000.

Definition doc1 : PdfDoc :=
  {| id := "Doc1.pdf"; name := "Doc1.pdf"; date := "day 19675"; size := "0.19 MB";
     uri := "file:///data/documents/Doc1.pdf"; timestamp := 1700000100 |}.

Definition renaming : State :=
  {| pdfs := []; filteredPdfs := []; searchQuery := EmptyString;
     isLoadingLibrary := false; isRefreshing := false;
     selectedImages := []; isProcessing := false;
     showDraftModal := false; pdfName := EmptyString;
     isRenameModalVisible := true; renamingItem := Some doc1;
     newFileName := "Doc2" |}.

(** The same rename in the sibling revision. *)
Definition editing : Sibling.State :=
  {| Sibling.pdfs := []; Sibling.isLoadingLibrary := false;
     Sibling.isRefreshing := false; Sibling.selectedImages := [];
     Sibling.editingId := Some "Doc1.pdf"; Sibling.editingValue := "Doc2" |}.

(** A documents directory with two documents and a file that is none. *)
Definition mixed_world : World :=
  world [("file:///data/documents/Doc1.pdf", file "JVBERi0xLjQKJcfs" 1572864 1700000100);
         ("file:///data/documents/notes.txt", file "bm90ZXM=" 5 1700000150);
         ("file:///data/documents/Doc2.PDF", file "JVBERi0xLjcKJeLj" 524288 1700000200)]
        1700000300000.

Definition settings : Settings.State :=
  {| Settings.storageSize := "0 MB"; Settings.docCount := 0;
     Settings.hapticsEnabled := true |}.

End Sample.

(** ** Strings *)

Example string_samples :
  trim "  Doc 2 " = "Doc 2"
  /\ replace "Doc1.pdf" ".pdf" EmptyString = "Doc1"
  /\ toLowerCase "Scan_01.PDF" = "scan_01.pdf"
  /\ endsWith (toLowerCase "Scan_01.PDF") ".pdf" = true
  /\ includes (toLowerCase "Rent_Agreement.pdf") (toLowerCase "AGREE") = true
  /\ toFixed2 (inject_Z 1572864 / (1024 * 1024)) = "1.50"
  /\ toFixed2 (inject_Z 5243 / (1024 * 1024)) = "0.01".
Proof. vm_compute. repeat split. Qed.

(** The no-break space U+00A0 is white space for [trim]. *)
Example trim_no_break_space :
  trim (String "160" EmptyString) = EmptyString
  /\ trim (String "160" (String "a" (String "160" EmptyString))) = "a"
  /\ trim (String "a" (String "160" (String "b" EmptyString)))
     = String "a" (String "160" (String "b" EmptyString)).
Proof. repeat split. Qed.

Lemma startsWith_app (p post : string) : startsWith (p ++ post) p = true.
Proof.
  induction p as [|c p IH]; [now destruct post|].
  simpl. now rewrite Ascii.eqb_refl, IH.
Qed.


Lemma includes_unfold (s p : string) :
  includes s p =
  startsWith s p
  || match s with EmptyString => false | String _ s' => includes s' p end.
Proof. now destruct s. Qed.

Lemma endsWith_unfold (s p : string) :
  endsWith s p =
  String.eqb s p
  || match s with EmptyString => false | String _ s' => endsWith s' p end.
Proof. now destruct s. Qed.


Lemma endsWith_spec (s p : string) :
  endsWith s p = true <-> exists pre, s = pre ++ p.
Proof.
  split.
  - induction s as [|a s IH]; rewrite endsWith_unfold; intros H.
    + rewrite orb_false_r in H. apply String.eqb_eq in H as <-.
      now exists EmptyString.
    + apply orb_prop in H as [H|H].
      * apply String.eqb_eq in H as <-. now exists EmptyString.
      * destruct (IH H) as [pre ->]. now exists (String a pre).
  - intros [pre ->]. induction pre as [|a pre IH].
    + rewrite endsWith_unfold. change (EmptyString ++ p) with p.
      now rewrite String.eqb_refl.
    + change (String a pre ++ p) with (String a (pre ++ p)).
      rewrite endsWith_unfold, IH. apply orb_true_r.
Qed.

(** ** Letter case *)

Lemma lower_char_code (c : ascii) :
  nat_of_ascii (lower_char c) =
  if is_upper c || is_upper_latin1 c then nat_of_ascii c + 32 else nat_of_ascii c.
Proof.
  unfold lower_char.
  destruct (is_upper c || is_upper_latin1 c) eqn:E; [|reflexivity].
  apply nat_ascii_embedding.
  unfold is_upper, is_upper_latin1 in E.
  repeat match type of E with
         | context [(?a <=? ?b)%nat] => destruct (Nat.leb_spec a b)
         end; cbn in E; try discriminate; lia.
Qed.

Lemma nat_of_ascii_inj (a b : ascii) : nat_of_ascii a = nat_of_ascii b -> a = b.
Proof.
  intros E. rewrite <- (ascii_nat_embedding a), <- (ascii_nat_embedding b).
  now rewrite E.
Qed.

(** Two characters have the same lower case exactly when they differ at
    most in letter case. *)
Lemma lower_char_same_letter (a b : ascii) :
  lower_char a = lower_char b <-> Spec.same_letter a b.
Proof.
  unfold Spec.same_letter, Spec.cases_of_a_letter. split.
  - intros E. apply (f_equal nat_of_ascii) in E. rewrite !lower_char_code in E.
    unfold is_upper, is_upper_latin1 in E.
    assert (D : nat_of_ascii a = nat_of_ascii b
                \/ (nat_of_ascii a = nat_of_ascii b + 32
                    /\ (65 <= nat_of_ascii b <= 90 \/ 192 <= nat_of_ascii b <= 214
                        \/ 216 <= nat_of_ascii b <= 222))
                \/ (nat_of_ascii b = nat_of_ascii a + 32
                    /\ (65 <= nat_of_ascii a <= 90 \/ 192 <= nat_of_ascii a <= 214
                        \/ 216 <= nat_of_ascii a <= 222))).
    { repeat match type of E with
             | context [(?x <=? ?y)%nat] => destruct (Nat.leb_spec x y)
             end; cbn in E; lia. }
    destruct D as [D|[D|D]]; [left; now apply nat_of_ascii_inj|right; now left|
                              right; now right].
  - intros H. apply nat_of_ascii_inj. rewrite !lower_char_code.
    unfold is_upper, is_upper_latin1.
    assert (D : nat_of_ascii a = nat_of_ascii b
                \/ (nat_of_ascii a = nat_of_ascii b + 32
                    /\ (65 <= nat_of_ascii b <= 90 \/ 192 <= nat_of_ascii b <= 214
                        \/ 216 <= nat_of_ascii b <= 222))
                \/ (nat_of_ascii b = nat_of_ascii a + 32
                    /\ (65 <= nat_of_ascii a <= 90 \/ 192 <= nat_of_ascii a <= 214
                        \/ 216 <= nat_of_ascii a <= 222))).
    { destruct H as [->|[H|H]]; [now left|right; now left|right; now right]. }
    clear H.
    repeat match goal with
           | |- context [(?x <=? ?y)%nat] => destruct (Nat.leb_spec x y)
           end; cbn; lia.
Qed.

Lemma toLowerCase_same (s t : string) :
  toLowerCase s = toLowerCase t <-> Spec.same_ignoring_case s t.
Proof.
  split.
  - revert t. induction s as [|a s IH]; intros [|b t] E; try discriminate.
    + constructor.
    + cbn in E. injection E as Ec Es. constructor.
      * now apply lower_char_same_letter.
      * now apply IH.
  - induction 1 as [|a b s t Hc _ IH]; [reflexivity|].
    cbn. apply lower_char_same_letter in Hc. now rewrite Hc, IH.
Qed.

Lemma toLowerCase_app (a b : string) :
  toLowerCase (a ++ b) = toLowerCase a ++ toLowerCase b.
Proof.
  induction a as [|c a IH]; [reflexivity|].
  change (String c a ++ b) with (String c (a ++ b)). cbn. now rewrite IH.
Qed.

Lemma toLowerCase_split (s a b : string) :
  toLowerCase s = a ++ b ->
  exists s1 s2, s = s1 ++ s2 /\ toLowerCase s1 = a /\ toLowerCase s2 = b.
Proof.
  revert s. induction a as [|c a IH]; intros s E.
  - now exists EmptyString, s.
  - destruct s as [|d s]; [discriminate|].
    change (String c a ++ b) with (String c (a ++ b)) in E. cbn in E.
    injection E as Ec Es. destruct (IH s Es) as (s1 & s2 & -> & E1 & E2).
    exists (String d s1), s2. cbn. now rewrite Ec, E1.
Qed.


(** The test of the refresh, [file.toLowerCase().endsWith('.pdf')]. *)
Lemma endsWith_ignoring_case (fileName : string) :
  endsWith (toLowerCase fileName) ".pdf" = true <-> Spec.pdf_suffixed fileName.
Proof.
  rewrite endsWith_spec. unfold Spec.pdf_suffixed. split.
  - intros (pre & E). apply toLowerCase_split in E as (s1 & s2 & -> & _ & E).
    exists s1, s2. split; [reflexivity|]. now apply toLowerCase_same.
  - intros (stem & suffix & -> & H). apply toLowerCase_same in H.
    exists (toLowerCase stem). now rewrite toLowerCase_app, H.
Qed.

(** ** The search filter *)

Import Index.

Lemma List_filter_sublist {A : Type} (f : A -> bool) (l : list A) :
  List.filter f l `sublist_of` l.
Proof.
  induction l as [|x l IH]; simpl; [constructor|].
  destruct (f x); now constructor.
Qed.

Lemma List_filter_elem_of {A : Type} (f : A -> bool) (l : list A) (x : A) :
  x ∈ List.filter f l <-> x ∈ l /\ f x = true.
Proof. rewrite !list_elem_of_In. apply filter_In. Qed.


Lemma applyFilter_shown (query : string) (data : list PdfDoc) (st : State) :
  filteredPdfs (applyFilter query data st) =
  if truthy query then
    List.filter (fun p => includes (toLowerCase (name p)) (toLowerCase query)) data
  else data.
Proof. unfold applyFilter. now destruct query. Qed.



(** The search finds a name with accented letters under a query in
    another letter case: the name and the query are U+00C9 t U+00E9 .pdf
    and U+00E9 t U+00C9. *)
Example applyFilter_accented :
  let displayName := String "201" (String "t" (String "233" ".pdf")) in
  let query := String "233" (String "t" (String "201" EmptyString)) in
  includes (toLowerCase displayName) (toLowerCase query) = true
  /\ includes displayName query = false.
Proof. split; reflexivity. Qed.

(** ** The draft session *)

Lemma setSelectedImages_same (st : State) :
  setSelectedImages (selectedImages st) st = st.
Proof. now destruct st. Qed.

Lemma setSelectedImages_twice (l l' : list string) (st : State) :
  setSelectedImages l (setSelectedImages l' st) = setSelectedImages l st.
Proof. reflexivity. Qed.

Section Exchange.
Context {A : Type}.
Implicit Types l : list A.

Lemma exchange_lookup l i j x y :
  i <> j -> l !! i = Some x -> l !! j = Some y ->
  let l' := <[j := x]> (<[i := y]> l) in
  l' !! i = Some y /\ l' !! j = Some x
  /\ (forall k, k <> i -> k <> j -> l' !! k = l !! k)
  /\ length l' = length l.
Proof.
  intros Hij Hi Hj. simpl.
  pose proof (lookup_lt_Some _ _ _ Hi). pose proof (lookup_lt_Some _ _ _ Hj).
  repeat split.
  - rewrite list_lookup_insert_ne by congruence.
    now apply list_lookup_insert_eq.
  - apply list_lookup_insert_eq. now rewrite length_insert.
  - intros k Hki Hkj. now rewrite !list_lookup_insert_ne by congruence.
  - now rewrite !length_insert.
Qed.

Lemma exchange_twice l i j x y :
  i <> j -> l !! i = Some x -> l !! j = Some y ->
  <[j := y]> (<[i := x]> (<[j := x]> (<[i := y]> l))) = l.
Proof.
  intros Hij Hi Hj.
  destruct (exchange_lookup l i j x y Hij Hi Hj) as (Ei & Ej & Ek & El).
  apply list_eq. intros k.
  destruct (decide (k = j)) as [->|Hkj].
  - rewrite list_lookup_insert_eq; [congruence|].
    rewrite length_insert. now apply lookup_lt_Some with x.
  - rewrite list_lookup_insert_ne by congruence.
    destruct (decide (k = i)) as [->|Hki].
    + rewrite list_lookup_insert_eq; [congruence|]. now apply lookup_lt_Some with y.
    + rewrite list_lookup_insert_ne by congruence. now apply Ek.
Qed.
End Exchange.

Lemma swapImages_noop (st : State) (i j : Z) :
  let n := Z.of_nat (length (selectedImages st)) in
  (i = j \/ ~ (0 <= i < n)%Z \/ ~ (0 <= j < n)%Z) -> swapImages i j st = st.
Proof.
  intros n H. unfold swapImages. fold n.
  destruct (i =? j)%Z eqn:E1; [reflexivity|].
  destruct (i <? 0)%Z eqn:E2; [reflexivity|].
  destruct (j <? 0)%Z eqn:E3; [reflexivity|].
  destruct (n <=? i)%Z eqn:E4; [reflexivity|].
  destruct (n <=? j)%Z eqn:E5; [reflexivity|].
  exfalso. lia.
Qed.

Lemma swapImages_inside (st : State) (i j : Z) :
  let l := selectedImages st in
  i <> j -> (0 <= i < Z.of_nat (length l))%Z -> (0 <= j < Z.of_nat (length l))%Z ->
  exists a b,
    l !! Z.to_nat j = Some a /\ l !! Z.to_nat i = Some b
    /\ swapImages i j st =
       setSelectedImages (<[Z.to_nat j := b]> (<[Z.to_nat i := a]> l)) st.
Proof.
  intros l Hij Hi Hj. unfold swapImages. fold l.
  destruct (i =? j)%Z eqn:E1; [lia|].
  destruct (i <? 0)%Z eqn:E2; [lia|].
  destruct (j <? 0)%Z eqn:E3; [lia|].
  destruct (Z.of_nat (length l) <=? i)%Z eqn:E4; [lia|].
  destruct (Z.of_nat (length l) <=? j)%Z eqn:E5; [lia|].
  simpl.
  destruct (lookup_lt_is_Some_2 l (Z.to_nat j)) as [a Ha]; [lia|].
  destruct (lookup_lt_is_Some_2 l (Z.to_nat i)) as [b Hb]; [lia|].
  exists a, b. now rewrite Ha, Hb.
Qed.

(** C5. On a draft of length n, swap(i, j) leaves the draft as it is when
    i = j or an index is outside [0, n); otherwise it exchanges exactly the
    entries at i and j; applied twice it restores the draft; and on
    [A, B, C], swap(0, 2) gives [C, B, A]. *)
Theorem swapImages_exchange (st : State) (i j : Z) :
  let l := selectedImages st in
  let n := Z.of_nat (length l) in
  let l' := selectedImages (swapImages i j st) in
  ((i = j \/ ~ (0 <= i < n)%Z \/ ~ (0 <= j < n)%Z) -> swapImages i j st = st)
  /\ (i <> j -> (0 <= i < n)%Z -> (0 <= j < n)%Z ->
      l' !! Z.to_nat i = l !! Z.to_nat j
      /\ l' !! Z.to_nat j = l !! Z.to_nat i
      /\ (forall k, k <> Z.to_nat i -> k <> Z.to_nat j -> l' !! k = l !! k)
      /\ length l' = length l)
  /\ swapImages i j (swapImages i j st) = st
  /\ (forall A B C : string,
        l = [A; B; C] -> selectedImages (swapImages 0 2 st) = [C; B; A]).
Proof.
  intros l n l'. split; [apply swapImages_noop|]. split; [|split].
  - intros Hij Hi Hj. subst l'.
    destruct (swapImages_inside st i j Hij Hi Hj) as (a & b & Ha & Hb & ->).
    fold l in Ha, Hb |- *. simpl.
    assert (Hne : Z.to_nat i <> Z.to_nat j) by lia.
    destruct (exchange_lookup l _ _ b a Hne Hb Ha) as (E1 & E2 & E3 & E4).
    rewrite E1, E2, Ha, Hb. auto.
  - destruct (decide (i <> j /\ (0 <= i < n)%Z /\ (0 <= j < n)%Z)) as [(Hij & Hi & Hj)|Hno].
    + destruct (swapImages_inside st i j Hij Hi Hj) as (a & b & Ha & Hb & E).
      fold l in Ha, Hb, E. rewrite E.
      assert (Hne : Z.to_nat i <> Z.to_nat j) by lia.
      destruct (exchange_lookup l _ _ b a Hne Hb Ha) as (E1 & E2 & E3 & E4).
      destruct (swapImages_inside (setSelectedImages (<[Z.to_nat j:=b]> (<[Z.to_nat i:=a]> l)) st) i j Hij)
        as (a' & b' & Ha' & Hb' & E'); simpl; try (rewrite E4; assumption).
      simpl in Ha', Hb', E'. rewrite E'.
      rewrite E2 in Ha'. rewrite E1 in Hb'.
      injection Ha' as <-. injection Hb' as <-.
      rewrite setSelectedImages_twice, (exchange_twice l _ _ b a Hne Hb Ha).
      apply setSelectedImages_same.
    + assert (H : i = j \/ ~ (0 <= i < n)%Z \/ ~ (0 <= j < n)%Z) by lia.
      rewrite (swapImages_noop st i j H). now apply swapImages_noop.
  - intros A B C E. unfold swapImages. fold l. rewrite E. reflexivity.
Qed.

Lemma filter_from_skips (index : nat) (l : list string) (i : nat) :
  filter_from (fun _ k => negb (Z.of_nat k =? Z.of_nat index)%Z) i l =
  if decide (i <= index) then delete (index - i) l else l.
Proof.
  revert i. induction l as [|x l IH]; intros i; simpl.
  - now destruct (decide (i <= index)).
  - rewrite IH. destruct (Z.of_nat i =? Z.of_nat index)%Z eqn:E; simpl.
    + apply Z.eqb_eq in E. assert (i = index) as -> by lia.
      rewrite Nat.sub_diag. destruct (decide (index <= index)); [|lia].
      destruct (decide (S index <= index)); [lia|reflexivity].
    + apply Z.eqb_neq in E.
      destruct (decide (i <= index)), (decide (S i <= index)); try lia; try reflexivity.
      replace (index - i) with (S (index - S i)) by lia. reflexivity.
Qed.

Lemma removeImage_selected (st : State) (index : nat) :
  selectedImages (removeImage (Z.of_nat index) st) =
  delete index (selectedImages st).
Proof.
  unfold removeImage, Array_filter. rewrite filter_from_skips.
  rewrite Nat.sub_0_r. destruct (decide (0 <= index)); [|lia].
  now destruct (Nat.eqb (length (delete index (selectedImages st))) 0).
Qed.

(** C6. Removing the entry at an index of the draft deletes exactly that
    entry, the entries after it move down by one and the others stay; when
    the draft becomes empty the draft modal closes, and so it does when the
    only entry of a draft is removed. *)
Theorem removeImage_deletes (st : State) (index : nat) :
  let l := selectedImages st in
  let st' := removeImage (Z.of_nat index) st in
  let l' := selectedImages st' in
  index < length l ->
  l' = (take index l ++ drop (S index) l)%list
  /\ S (length l') = length l
  /\ (forall k, k < index -> l' !! k = l !! k)
  /\ (forall k, index <= k -> l' !! k = l !! S k)
  /\ (l' = [] -> showDraftModal st' = false)
  /\ (l' <> [] -> showDraftModal st' = showDraftModal st)
  /\ (length l = 1 -> l' = [] /\ showDraftModal st' = false).
Proof.
  intros l st' l' Hlt.
  assert (El' : l' = delete index l) by apply removeImage_selected.
  assert (Hclose : l' = [] -> showDraftModal st' = false).
  { intros E. subst st' l'. unfold removeImage in *.
    destruct (Nat.eqb (length _) 0) eqn:En; [reflexivity|].
    simpl in E. rewrite E in En. discriminate. }
  split; [rewrite El'; apply delete_take_drop|].
  split; [rewrite El', length_delete; [lia|now apply lookup_lt_is_Some_2]|].
  split; [intros k Hk; rewrite El'; now apply list_lookup_delete_lt|].
  split; [intros k Hk; rewrite El'; now apply list_lookup_delete_ge|].
  split; [assumption|]. split.
  - intros Hne. subst st' l'. unfold removeImage in *.
    destruct (Nat.eqb (length _) 0) eqn:En; [|reflexivity].
    apply Nat.eqb_eq in En. simpl in Hne.
    now apply length_zero_iff_nil in En.
  - intros H1.
    assert (E : l' = []).
    { apply length_zero_iff_nil. rewrite El', length_delete; [lia|].
      now apply lookup_lt_is_Some_2. }
    auto.
Qed.

Lemma removeImage_deletes_witness :
  let st := {| pdfs := []; filteredPdfs := []; searchQuery := EmptyString;
               isLoadingLibrary := false; isRefreshing := false;
               selectedImages := ["a.jpg"]; isProcessing := false;
               showDraftModal := true; pdfName := "Doc_101500";
               isRenameModalVisible := false; renamingItem := None;
               newFileName := EmptyString |} in
  selectedImages (removeImage 0 st) = [] /\ showDraftModal (removeImage 0 st) = false.
Proof.
  intros st.
  assert (H : 0 < length (selectedImages st)) by (simpl; lia).
  destruct (removeImage_deletes st 0 H) as (_ & _ & _ & _ & _ & _ & Hone).
  apply Hone. reflexivity.
Defined.

(** ** The reorder resolver *)





(** ** Sorting *)

Lemma StronglySorted_mono {A : Type} (R R' : A -> A -> Prop) (l : list A) :
  (forall a b, a ∈ l -> b ∈ l -> R a b -> R' a b) ->
  StronglySorted R l -> StronglySorted R' l.
Proof.
  intros H Hs. induction Hs as [|x l Hs IH Hx]; constructor.
  - apply IH. intros a b Ha Hb. apply H; now right.
  - rewrite Forall_forall in Hx |- *. intros y Hy.
    apply H; [now left|now right|now apply Hx].
Qed.

Section SortFacts.
Context {A : Type}.
Variable compareFn : A -> A -> Q.

Local Abbreviation front := (in_front compareFn).

Lemma sort_insert_perm (x : A) (l : list A) :
  sort_insert compareFn x l ≡ₚ x :: l.
Proof.
  induction l as [|y l IH]; simpl; [reflexivity|].
  destruct (Qle_bool (compareFn x y) 0); [reflexivity|].
  rewrite IH. apply Permutation_swap.
Qed.

Lemma Array_sort_perm (l : list A) : Array_sort compareFn l ≡ₚ l.
Proof.
  induction l as [|x l IH]; simpl; [reflexivity|].
  now rewrite sort_insert_perm, IH.
Qed.

Lemma Array_sort_length (l : list A) :
  length (Array_sort compareFn l) = length l.
Proof. apply Permutation_length, Array_sort_perm. Qed.

Hypothesis front_total : forall a b, front a b \/ front b a.
Hypothesis front_trans : forall a b c, front a b -> front b c -> front a c.

Lemma sort_insert_sorted (x : A) (l : list A) :
  StronglySorted front l -> StronglySorted front (sort_insert compareFn x l).
Proof.
  induction 1 as [|y l Hs IH Hy]; simpl.
  - repeat constructor.
  - destruct (Qle_bool (compareFn x y) 0) eqn:E.
    + constructor; [now constructor|]. constructor; [exact E|].
      eapply Forall_impl; [exact Hy|]. intros z Hz. now apply front_trans with y.
    + constructor; [exact IH|].
      rewrite (sort_insert_perm x l). constructor; [|exact Hy].
      destruct (front_total x y) as [H|H]; [unfold in_front in H; congruence|exact H].
Qed.

Lemma Array_sort_sorted (l : list A) :
  StronglySorted front (Array_sort compareFn l).
Proof.
  induction l as [|x l IH]; simpl; [constructor|].
  now apply sort_insert_sorted.
Qed.

(** A stable sort commutes with taking a subsequence by a predicate. *)
Lemma filter_sort_insert (keep : A -> bool) (x : A) (l : list A) :
  StronglySorted front l ->
  List.filter keep (sort_insert compareFn x l) =
  if keep x then sort_insert compareFn x (List.filter keep l)
  else List.filter keep l.
Proof.
  induction 1 as [|y l Hs IH Hy]; simpl.
  - now destruct (keep x).
  - destruct (Qle_bool (compareFn x y) 0) eqn:E; simpl.
    + destruct (keep x) eqn:Kx, (keep y) eqn:Ky; simpl; rewrite ?E; try reflexivity.
      assert (Hx : Forall (front x) (List.filter keep l)).
      { apply Forall_forall. intros z Hz%list_elem_of_In%filter_In.
        destruct Hz as [Hz _]. apply front_trans with y; [exact E|].
        rewrite Forall_forall in Hy. apply Hy. now apply list_elem_of_In. }
      destruct (List.filter keep l) as [|z l']; [reflexivity|].
      simpl. apply Forall_cons in Hx as [Hz _]. unfold in_front in Hz.
      now rewrite Hz.
    + rewrite IH. destruct (keep x) eqn:Kx, (keep y) eqn:Ky; simpl;
        rewrite ?E; reflexivity.
Qed.

Lemma filter_Array_sort (keep : A -> bool) (l : list A) :
  List.filter keep (Array_sort compareFn l) =
  Array_sort compareFn (List.filter keep l).
Proof.
  induction l as [|x l IH]; simpl; [reflexivity|].
  rewrite filter_sort_insert by apply Array_sort_sorted.
  rewrite IH. now destruct (keep x).
Qed.
End SortFacts.

(** ** Batches of promises *)

Section PromiseFacts.
Context {A : Type}.
Implicit Types (vs : list A) (rs : list (Result A)) (slots : list (option A)).

Lemma completion_order_perm (delay : nat -> nat) (n : nat) :
  completion_order delay n ≡ₚ seq 0 n.
Proof. apply Array_sort_perm. Qed.





Lemma settle_fulfilled vs (order : list nat) slots :
  length slots = length vs ->
  exists slots',
    settle (map Ok vs) order slots = Ok slots'
    /\ length slots' = length vs
    /\ forall k, k < length vs ->
         slots' !! k = if decide (k ∈ order) then Some (vs !! k) else slots !! k.
Proof.
  revert slots. induction order as [|i order IH]; intros slots Hlen; simpl.
  - exists slots. split; [reflexivity|]. split; [exact Hlen|]. intros k Hk.
    destruct (decide (k ∈ [])) as [H|_]; [inversion H|reflexivity].
  - rewrite list_lookup_fmap. destruct (vs !! i) as [v|] eqn:Ei; simpl.
    + destruct (IH (<[i := Some v]> slots)) as (slots' & E & Hl & Hk).
      { now rewrite length_insert. }
      exists slots'. split; [exact E|]. split; [exact Hl|]. intros k Hlt.
      rewrite (Hk k Hlt).
      destruct (decide (k ∈ order)) as [Hin|Hnin].
      * destruct (decide (k ∈ i :: order)) as [_|Hn]; [reflexivity|].
        exfalso. apply Hn. now right.
      * destruct (decide (k = i)) as [->|Hne].
        -- destruct (decide (i ∈ i :: order)) as [_|Hn]; [|exfalso; apply Hn; left].
           rewrite list_lookup_insert_eq, Ei; [reflexivity|].
           rewrite Hlen. now apply lookup_lt_Some with v.
        -- rewrite list_lookup_insert_ne by congruence.
           destruct (decide (k ∈ i :: order)) as [Hin|_]; [|reflexivity].
           apply elem_of_cons in Hin as [?|?]; congruence.
    + destruct (IH slots Hlen) as (slots' & E & Hl & Hk).
      exists slots'. split; [exact E|]. split; [exact Hl|]. intros k Hlt.
      rewrite (Hk k Hlt).
      destruct (decide (k ∈ order)) as [Hin|Hnin].
      * destruct (decide (k ∈ i :: order)) as [_|Hn]; [reflexivity|].
        exfalso. apply Hn. now right.
      * destruct (decide (k ∈ i :: order)) as [Hin|_]; [|reflexivity].
        apply elem_of_cons in Hin as [->|?]; [|contradiction].
        apply lookup_ge_None in Ei. lia.
Qed.

(** When every promise of the batch is fulfilled, the batch resolves to
    the values in the order of the promises, whatever the order in which
    they settled. *)
Lemma Promise_all_fulfilled (delay : nat -> nat) vs :
  Promise_all delay (map Ok vs) = Ok vs.
Proof.
  unfold Promise_all. rewrite length_map.
  destruct (settle_fulfilled vs (completion_order delay (length vs))
              (replicate (length vs) None)) as (slots' & -> & Hl & Hk).
  { apply length_replicate. }
  f_equal.
  assert (E : slots' = map Some vs).
  { apply list_eq. intros k. rewrite list_lookup_fmap.
    destruct (decide (k < length vs)) as [Hlt|Hge].
    - rewrite (Hk k Hlt).
      destruct (decide (k ∈ completion_order delay (length vs))) as [_|Hn].
      + destruct (lookup_lt_is_Some_2 vs k Hlt) as [v ->]. reflexivity.
      + exfalso. apply Hn. rewrite completion_order_perm.
        apply elem_of_seq. lia.
    - rewrite (lookup_ge_None_2 slots') by lia.
      rewrite (lookup_ge_None_2 vs) by lia. reflexivity. }
  rewrite E. clear. induction vs as [|v vs IH]; [reflexivity|].
  cbn. f_equal. exact IH.
Qed.

Lemma Promise_all_map_fulfilled {B : Type} (delay : nat -> nat)
      (f : B -> Result A) (g : B -> A) (xs : list B) :
  (forall x, x ∈ xs -> f x = Ok (g x)) ->
  Promise_all delay (map f xs) = Ok (map g xs).
Proof.
  intros H. rewrite <- Promise_all_fulfilled with (delay := delay).
  f_equal. rewrite map_map. apply map_ext_in. intros x Hx.
  apply H. now apply list_elem_of_In.
Qed.

Lemma settle_rejected rs (order : list nat) slots (i : nat) (m : string) :
  i ∈ order -> rs !! i = Some (Throw m) ->
  exists m', settle rs order slots = Throw m' /\ Throw m' ∈ rs.
Proof.
  revert slots. induction order as [|j order IH]; intros slots Hin Hi.
  - inversion Hin.
  - simpl. destruct (rs !! j) as [[v|m']|] eqn:Ej.
    + apply elem_of_cons in Hin as [->|Hin]; [congruence|]. now apply IH.
    + exists m'. split; [reflexivity|]. now apply list_elem_of_lookup_2 with j.
    + apply elem_of_cons in Hin as [->|Hin]; [congruence|]. now apply IH.
Qed.

(** A rejected promise rejects the batch, with the message of one of the
    rejected promises. *)
Lemma Promise_all_rejected (delay : nat -> nat) rs (i : nat) (m : string) :
  rs !! i = Some (Throw m) ->
  exists m', Promise_all delay rs = Throw m' /\ Throw m' ∈ rs.
Proof.
  intros Hi. unfold Promise_all.
  destruct (settle_rejected rs (completion_order delay (length rs))
              (replicate (length rs) None) i m) as (m' & -> & Hm'); [|exact Hi|].
  - rewrite completion_order_perm. apply elem_of_seq.
    apply lookup_lt_Some in Hi. lia.
  - now exists m'.
Qed.
End PromiseFacts.

(** ** The library index *)

Import Expo.

Lemma fileEntry_fulfilled (dev : Device) (docDir fileName : string) (w : World) :
  fileEntry dev docDir fileName w = Ok (Spec.entry dev docDir w fileName).
Proof.
  unfold Spec.entry, fileEntry.
  destruct (getInfoAsync (docDir ++ fileName) w) as [[|sz mt]|m]; reflexivity.
Qed.

Lemma entry_name_uri (dev : Device) (docDir fileName : string) (w : World) :
  name (Spec.entry dev docDir w fileName) = fileName
  /\ id (Spec.entry dev docDir w fileName) = fileName
  /\ uri (Spec.entry dev docDir w fileName) = docDir ++ fileName.
Proof.
  unfold Spec.entry, fileEntry.
  destruct (getInfoAsync (docDir ++ fileName) w) as [[|sz mt]|m]; repeat split.
Qed.

Lemma entry_fault (dev : Device) (docDir fileName m : string) (w : World) :
  infoFault w (docDir ++ fileName) = Some m ->
  Spec.entry dev docDir w fileName = Spec.sentinel docDir fileName.
Proof.
  intros H. unfold Spec.entry, fileEntry, getInfoAsync. now rewrite H.
Qed.

Lemma entry_timestamp (dev : Device) (docDir fileName : string) (w : World)
      (file : FileData) :
  infoFault w (docDir ++ fileName) = None ->
  lookup_file (docDir ++ fileName) (fs w) = Some file ->
  timestamp (Spec.entry dev docDir w fileName) =
  if Qeq_bool (modificationTime file) 0 then (inject_Z (clock w) / 1000)%Q
  else modificationTime file.
Proof.
  intros Hi Hf. unfold Spec.entry, fileEntry, getInfoAsync. rewrite Hi, Hf.
  reflexivity.
Qed.

Lemma loadLibrary_pdfs (dev : Device) (docDir : string) (showSpinner : bool)
      (st : State) (w : World) :
  documentDirectory dev = Some docDir -> docDir <> EmptyString ->
  listFault w = None ->
  pdfs (loadLibrary dev showSpinner st w) =
  Array_sort (fun a b => (timestamp b - timestamp a)%Q)
             (map (Spec.entry dev docDir w) (Spec.pdf_entries docDir w)).
Proof.
  intros Hd Hne Hl. unfold loadLibrary. rewrite Hd.
  destruct docDir as [|c d]; [congruence|]. cbn [truthy negb].
  unfold readDirectoryAsync. rewrite Hl.
  rewrite (Promise_all_map_fulfilled _ _ (Spec.entry dev (String c d) w))
    by (intros; apply fileEntry_fulfilled).
  unfold applyFilter. now destruct (negb (truthy _)).
Qed.

Lemma timestamp_front_iff (a b : PdfDoc) :
  in_front (fun a b => (timestamp b - timestamp a)%Q) a b <->
  (timestamp b <= timestamp a)%Q.
Proof. unfold in_front. rewrite Qle_bool_iff. split; intros H; lra. Qed.

Lemma refresh_sorted (l : list PdfDoc) :
  Spec.newest_first timestamp
    (Array_sort (fun a b => (timestamp b - timestamp a)%Q) l).
Proof.
  unfold Spec.newest_first.
  eapply StronglySorted_mono; [|apply Array_sort_sorted].
  - intros a b _ _ H. now apply timestamp_front_iff.
  - intros a b. rewrite !timestamp_front_iff.
    destruct (Qlt_le_dec (timestamp a) (timestamp b)) as [H|H]; [right|left]; lra.
  - intros a b c. rewrite !timestamp_front_iff. lra.
Qed.

Lemma map_name_entry (dev : Device) (docDir : string) (w : World) (l : list string) :
  map name (map (Spec.entry dev docDir w) l) = l.
Proof.
  induction l as [|f l IH]; simpl; [reflexivity|].
  rewrite IH. f_equal. apply entry_name_uri.
Qed.

Lemma pdf_entries_spec (docDir : string) (w : World) (f : string) :
  f ∈ Spec.pdf_entries docDir w <->
  f ∈ Spec.listing docDir w /\ Spec.pdf_suffixed f.
Proof.
  unfold Spec.pdf_entries.
  now rewrite List_filter_elem_of, endsWith_ignoring_case.
Qed.

Lemma entry_plain_timestamp (dev : Device) (docDir : string) (w : World) (f : string) :
  Spec.plain_metadata docDir w -> f ∈ Spec.pdf_entries docDir w ->
  timestamp (Spec.entry dev docDir w f) =
  Spec.mtime_of w (Spec.entry dev docDir w f).
Proof.
  intros Hp Hf. destruct (Hp f Hf) as [Hi Hm].
  unfold Spec.mtime_of. rewrite (proj2 (proj2 (entry_name_uri dev docDir f w))).
  unfold Spec.entry, fileEntry, getInfoAsync. rewrite Hi.
  destruct (lookup_file (docDir ++ f) (fs w)) as [file|] eqn:E; [|reflexivity].
  simpl. destruct (Qeq_bool (modificationTime file) 0) eqn:Ez; [|reflexivity].
  apply Qeq_bool_eq in Ez. now destruct (Hm file eq_refl).
Qed.

Lemma entry_same (dev : Device) (docDir : string) (w w' : World) (f : string) :
  fs w' = fs w ->
  infoFault w' (docDir ++ f) = infoFault w (docDir ++ f) ->
  (clock w' = clock w
   \/ (infoFault w (docDir ++ f) = None ->
       forall file, lookup_file (docDir ++ f) (fs w) = Some file ->
                    ~ (modificationTime file == 0)%Q)) ->
  Spec.entry dev docDir w' f = Spec.entry dev docDir w f.
Proof.
  intros Hfs Hi Hc. unfold Spec.entry, fileEntry, getInfoAsync.
  rewrite Hfs, Hi. destruct (infoFault w (docDir ++ f)); [reflexivity|].
  destruct (lookup_file (docDir ++ f) (fs w)) as [file|] eqn:E; [|reflexivity].
  destruct Hc as [->|Hm]; [reflexivity|].
  destruct (Qeq_bool (modificationTime file) 0) eqn:Ez; [|reflexivity].
  apply Qeq_bool_eq in Ez. now destruct (Hm eq_refl file eq_refl).
Qed.

Lemma entry_derived_timestamp (dev : Device) (docDir : string) (w : World)
      (f : string) :
  timestamp (Spec.entry dev docDir w f) = Spec.derived_timestamp w (docDir ++ f).
Proof.
  unfold Spec.entry, fileEntry, getInfoAsync, Spec.derived_timestamp.
  destruct (infoFault w (docDir ++ f)); [reflexivity|].
  now destruct (lookup_file (docDir ++ f) (fs w)).
Qed.

(** A second refresh of the unchanged directory, with the same metadata
    reads failing, gives the same list when the clock reads the same or no
    file reports the modification time zero. *)
Lemma refresh_again (dev : Device) (docDir : string) (w w' : World) (st st' : State) :
  documentDirectory dev = Some docDir -> docDir <> EmptyString ->
  listFault w = None -> listFault w' = None ->
  fs w' = fs w -> (forall u, infoFault w' u = infoFault w u) ->
  clock w' = clock w \/ Spec.no_zero_time docDir w ->
  Spec.refresh dev w' st' = Spec.refresh dev w st.
Proof.
  intros Hd Hne Hl Hl' Hfs Hi Hc. unfold Spec.refresh.
  rewrite (loadLibrary_pdfs dev docDir false st' w' Hd Hne Hl').
  rewrite (loadLibrary_pdfs dev docDir false st w Hd Hne Hl).
  f_equal. unfold Spec.pdf_entries, Spec.listing. rewrite Hfs.
  apply map_ext_in. intros f Hf%list_elem_of_In.
  apply entry_same; [exact Hfs|apply Hi|].
  destruct Hc as [Hc|Hz]; [now left|right].
  intros Hread file. now apply (Hz f).
Qed.

(** Where every metadata read succeeds, the refresh of the sibling
    revision lists the documents the library screen lists. *)
Lemma sibling_loadLibrary_pdfs (dev : Device) (docDir : string) (w : World)
      (st : State) (sst : Sibling.State) (showSpinner : bool) :
  documentDirectory dev = Some docDir -> docDir <> EmptyString ->
  listFault w = None -> Spec.reads_succeed docDir w ->
  Sibling.pdfs (Sibling.loadLibrary dev showSpinner sst w) = Spec.refresh dev w st.
Proof.
  intros Hd Hne Hl Hr. unfold Spec.refresh.
  rewrite (loadLibrary_pdfs dev docDir false st w Hd Hne Hl).
  unfold Sibling.loadLibrary. rewrite Hd.
  destruct docDir as [|c d]; [congruence|]. cbn [truthy negb].
  unfold readDirectoryAsync. rewrite Hl.
  change (List.filter _ (omap _ (fs w))) with (Spec.pdf_entries (String c d) w).
  rewrite (Promise_all_map_fulfilled _ _ (Spec.entry dev (String c d) w)).
  - now destruct showSpinner.
  - intros f Hf. unfold Sibling.fileEntry, Spec.entry, fileEntry, getInfoAsync.
    rewrite (Hr f Hf). now destruct (lookup_file _ _).
Qed.

(** C2, as the code has it. With the documents directory listed, refresh
    returns exactly the listed names that end in .pdf, letter case ignored;
    each document carries the derived timestamp (the modification time, the
    time of the clock when that is 0, and 0 when the metadata read fails),
    and the documents are ordered by it, newest first, which is the order
    of the modification times when every metadata read succeeds with a
    modification time other than zero; a second call on the unchanged
    directory with the same reads failing returns the same sequence,
    whatever the order in which the metadata reads settle, when the clock
    reads the same or no file reports the modification time zero; and where
    every metadata read succeeds the sibling revision lists the same
    sequence. *)
Theorem refresh_library (dev : Device) (docDir : string) (w : World) (st : State) :
  documentDirectory dev = Some docDir -> docDir <> EmptyString ->
  listFault w = None ->
  let r := Spec.refresh dev w st in
  map name r ≡ₚ Spec.pdf_entries docDir w
  /\ (forall f, f ∈ Spec.pdf_entries docDir w <->
                f ∈ Spec.listing docDir w /\ Spec.pdf_suffixed f)
  /\ (forall d, d ∈ r ->
        id d = name d /\ uri d = docDir ++ name d
        /\ timestamp d = Spec.derived_timestamp w (uri d))
  /\ Spec.newest_first timestamp r
  /\ (Spec.plain_metadata docDir w -> Spec.newest_first (Spec.mtime_of w) r)
  /\ (forall w' st',
        fs w' = fs w -> listFault w' = None ->
        (forall u, infoFault w' u = infoFault w u) ->
        clock w' = clock w \/ Spec.no_zero_time docDir w ->
        forall settling, Spec.refresh dev (with_delay w' settling) st' = r)
  /\ (forall sst showSpinner,
        Spec.reads_succeed docDir w ->
        Sibling.pdfs (Sibling.loadLibrary dev showSpinner sst w) = r).
Proof.
  intros Hd Hne Hl r.
  assert (Er : r = Array_sort (fun a b => (timestamp b - timestamp a)%Q)
                     (map (Spec.entry dev docDir w) (Spec.pdf_entries docDir w)))
    by now apply loadLibrary_pdfs.
  split; [|split; [|split; [|split; [|split; [|split]]]]].
  - rewrite Er, Array_sort_perm. now rewrite map_name_entry.
  - apply pdf_entries_spec.
  - intros d Hin. rewrite Er, Array_sort_perm in Hin.
    apply list_elem_of_fmap in Hin as (f & -> & Hf).
    destruct (entry_name_uri dev docDir f w) as (-> & -> & ->).
    split; [reflexivity|]. split; [reflexivity|]. apply entry_derived_timestamp.
  - rewrite Er. apply refresh_sorted.
  - intros Hp. unfold Spec.newest_first.
    apply StronglySorted_mono with (R := fun a b => (timestamp b <= timestamp a)%Q);
      [|rewrite Er; apply refresh_sorted].
    assert (Hts : forall d, d ∈ r -> timestamp d = Spec.mtime_of w d).
    { intros d Hin. rewrite Er, Array_sort_perm in Hin.
      apply list_elem_of_fmap in Hin as (f & -> & Hf).
      now apply entry_plain_timestamp. }
    intros a b Ha Hb. now rewrite (Hts a Ha), (Hts b Hb).
  - intros w' st' Hfs Hl' Hi Hc settling.
    now apply (refresh_again dev docDir w (with_delay w' settling) st st').
  - intros sst showSpinner Hr.
    now apply (sibling_loadLibrary_pdfs dev docDir w st sst showSpinner).
Qed.

Lemma refresh_library_witness :
  Spec.newest_first timestamp
    (Spec.refresh Sample.device Sample.epoch_world (Sample.state [] false EmptyString)).
Proof.
  assert (Hne : Sample.docDir <> EmptyString) by discriminate.
  exact (proj1 (proj2 (proj2 (proj2
    (refresh_library Sample.device Sample.docDir Sample.epoch_world
       (Sample.state [] false EmptyString) eq_refl Hne eq_refl))))).
Defined.

(** C2, as stated, fails where a modification time is zero: [a.pdf]
    (modified at 0) is given the current time and listed before [b.pdf]
    (modified at 5). *)
Lemma refresh_not_by_modification_time :
  ~ Spec.refresh_as_stated Sample.device Sample.docDir Sample.epoch_world
      (Sample.state [] false EmptyString).
Proof.
  intros (_ & Hs & _). unfold Spec.newest_first in Hs.
  apply StronglySorted_inv in Hs as [_ Hs].
  apply Forall_cons in Hs as [Hs _].
  vm_compute in Hs. now apply Hs.
Qed.

Lemma List_filter_map {A B : Type} (keep : B -> bool) (g : A -> B) (l : list A) :
  List.filter keep (map g l) = map g (List.filter (fun x => keep (g x)) l).
Proof.
  induction l as [|x l IH]; simpl; [reflexivity|].
  rewrite IH. now destruct (keep (g x)).
Qed.

Lemma append_cancel (p a b : string) : p ++ a = p ++ b -> a = b.
Proof.
  induction p as [|c p IH]; simpl; intros H; [exact H|].
  injection H as H. now apply IH.
Qed.

Lemma others_of_refresh (dev : Device) (docDir : string) (w : World)
      (st : State) (fileName : string) :
  documentDirectory dev = Some docDir -> docDir <> EmptyString ->
  listFault w = None ->
  List.filter (fun d => negb (String.eqb (name d) fileName)) (Spec.refresh dev w st) =
  Array_sort (fun a b => (timestamp b - timestamp a)%Q)
    (map (Spec.entry dev docDir w)
         (List.filter (fun f => negb (String.eqb f fileName))
                      (Spec.pdf_entries docDir w))).
Proof.
  intros Hd Hne Hl. unfold Spec.refresh.
  rewrite (loadLibrary_pdfs dev docDir false st w Hd Hne Hl).
  rewrite filter_Array_sort.
  - f_equal. rewrite List_filter_map. f_equal.
    apply filter_ext. intros f.
    now rewrite (proj1 (entry_name_uri dev docDir f w)).
  - intros a b. rewrite !timestamp_front_iff.
    destruct (Qlt_le_dec (timestamp a) (timestamp b)) as [H|H]; [right|left]; lra.
  - intros a b c. rewrite !timestamp_front_iff. lra.
Qed.

(** C3. When the metadata read of one listed .pdf file fails, the refresh
    still completes with one document per .pdf file; the failing file is
    in the result with size 0 MB and date Error; and the documents of the
    other files, in their order, are those of a refresh in which that read
    does not fail. *)
Theorem refresh_tolerates_failed_read (dev : Device) (docDir : string) (w : World)
        (st : State) (fileName message : string) :
  documentDirectory dev = Some docDir -> docDir <> EmptyString ->
  listFault w = None ->
  fileName ∈ Spec.pdf_entries docDir w ->
  infoFault w (docDir ++ fileName) = Some message ->
  let r := Spec.refresh dev w st in
  let others := fun d => negb (String.eqb (name d) fileName) in
  Spec.sentinel docDir fileName ∈ r
  /\ Index.size (Spec.sentinel docDir fileName) = "0 MB"
  /\ Index.date (Spec.sentinel docDir fileName) = "Error"
  /\ length r = length (Spec.pdf_entries docDir w)
  /\ (forall w0 st0,
        fs w0 = fs w -> clock w0 = clock w -> listFault w0 = None ->
        (forall u, u <> docDir ++ fileName -> infoFault w0 u = infoFault w u) ->
        List.filter others r = List.filter others (Spec.refresh dev w0 st0)).
Proof.
  intros Hd Hne Hl Hin Hfault r others.
  assert (Er : r = Array_sort (fun a b => (timestamp b - timestamp a)%Q)
                     (map (Spec.entry dev docDir w) (Spec.pdf_entries docDir w)))
    by now apply loadLibrary_pdfs.
  split; [|split; [reflexivity|split; [reflexivity|split]]].
  - rewrite Er, Array_sort_perm.
    rewrite <- (entry_fault dev docDir fileName message w Hfault).
    now apply list_elem_of_fmap_2.
  - now rewrite Er, Array_sort_length, length_map.
  - intros w0 st0 Hfs Hc Hl0 Hi. subst r others.
    rewrite (others_of_refresh dev docDir w st fileName Hd Hne Hl).
    rewrite (others_of_refresh dev docDir w0 st0 fileName Hd Hne Hl0).
    f_equal. unfold Spec.pdf_entries, Spec.listing. rewrite Hfs.
    apply map_ext_in. intros f [_ Hf]%filter_In.
    symmetry. apply entry_same; [exact Hfs| |now left].
    apply Hi. intros E%append_cancel. subst f.
    now rewrite String.eqb_refl in Hf.
Qed.

Lemma refresh_tolerates_failed_read_witness :
  let w := {| fs := fs Sample.epoch_world; clock := 100000; delay := fun i => 7 - i;
              listFault := None;
              infoFault := fun u =>
                if String.eqb u "file:///data/documents/a.pdf"
                then Some "ENOENT" else None;
              printService := printService Sample.epoch_world; alerts := [] |} in
  Spec.sentinel Sample.docDir "a.pdf"
    ∈ Spec.refresh Sample.device w (Sample.state [] false EmptyString).
Proof.
  intros w.
  assert (Hne : Sample.docDir <> EmptyString) by discriminate.
  assert (Hin : "a.pdf" ∈ Spec.pdf_entries Sample.docDir w)
    by (vm_compute; left).
  exact (proj1 (refresh_tolerates_failed_read Sample.device Sample.docDir w
                  (Sample.state [] false EmptyString) "a.pdf" "ENOENT"
                  eq_refl Hne eq_refl Hin eq_refl)).
Defined.

(** ** The file system *)

Lemma lookup_store_eq (uri : string) (f : FileData) (l : list (string * FileData)) :
  lookup_file uri (store_file uri f l) = Some f.
Proof.
  induction l as [|[u g] l IH]; simpl.
  - now rewrite String.eqb_refl.
  - destruct (String.eqb u uri) eqn:E; simpl; now rewrite E.
Qed.

Lemma lookup_store_ne (uri uri' : string) (f : FileData) (l : list (string * FileData)) :
  uri <> uri' -> lookup_file uri' (store_file uri f l) = lookup_file uri' l.
Proof.
  intros Hne. induction l as [|[u g] l IH]; simpl.
  - apply String.eqb_neq in Hne. now rewrite Hne.
  - destruct (String.eqb u uri) eqn:E; simpl.
    + apply String.eqb_eq in E as ->. apply String.eqb_neq in Hne. now rewrite Hne.
    + now rewrite IH.
Qed.

Lemma lookup_remove_eq (uri : string) (l : list (string * FileData)) :
  lookup_file uri (remove_file uri l) = None.
Proof.
  induction l as [|[u g] l IH]; simpl; [reflexivity|].
  destruct (String.eqb u uri) eqn:E; simpl; [exact IH|]. now rewrite E.
Qed.

Lemma lookup_remove_ne (uri uri' : string) (l : list (string * FileData)) :
  uri <> uri' -> lookup_file uri' (remove_file uri l) = lookup_file uri' l.
Proof.
  intros Hne. induction l as [|[u g] l IH]; simpl; [reflexivity|].
  destruct (String.eqb u uri) eqn:E; simpl.
  - apply String.eqb_eq in E as ->. apply String.eqb_neq in Hne. now rewrite Hne.
  - now rewrite IH.
Qed.

(** ** The conversion *)

Lemma in_name_class_replaced (s : string) :
  Forall (fun c => in_name_class c = true)
         (list_ascii_of_string (replace_outside_name_class s)).
Proof.
  induction s as [|c s IH]; simpl; constructor; [|exact IH].
  destruct (in_name_class c) eqn:E; [exact E|reflexivity].
Qed.

Lemma replace_outside_name_class_get (s : string) (i : nat) :
  String.get i (replace_outside_name_class s) =
  match String.get i s with
  | Some c => Some (if in_name_class c then c else "_"%char)
  | None => None
  end.
Proof.
  revert i. induction s as [|c s IH]; intros i; simpl; [reflexivity|].
  destruct i; [reflexivity|apply IH].
Qed.

(** What a successful run of the [try] block of [generatePdf] did. *)
Lemma generatePdf_try_fulfilled (dev : Device) (st : State) (w w2 : World) :
  generatePdf_try dev st w = (Ok tt, w2) ->
  exists base64Images tempUri rendered,
    Promise_all (delay w) (map (fun uri => encodeImage uri w) (selectedImages st))
    = Ok base64Images
    /\ printService w (htmlContent base64Images) = Ok (tempUri, rendered)
    /\ fs w2 =
       store_file (tpl (documentDirectory dev) ++ finalName (pdfName st))
         {| data := data rendered; Expo.size := Expo.size rendered;
            modificationTime := (inject_Z (clock w) / 1000)%Q |}
         (store_file tempUri rendered (fs w))
    /\ alerts w2 = alerts w.
Proof.
  unfold generatePdf_try, bind, reading, printToFileAsync, copyAsync.
  destruct (Promise_all _ _) as [imgs|m]; [|discriminate].
  destruct (printService w (htmlContent imgs)) as [[tempUri rendered]|m] eqn:Ep;
    [|discriminate].
  cbn [fs with_fs]. rewrite lookup_store_eq.
  intros [= <-]. exists imgs, tempUri, rendered. repeat split; assumption.
Qed.

(** C10. The name under which the conversion stores a draft is the chosen
    name with every character outside letters, digits, underscore and
    hyphen replaced by an underscore, or Doc when that is empty, followed
    by .pdf; it is a non-empty stem over that class followed by .pdf; and
    the file a successful conversion copies into the documents directory
    has that name. *)
Theorem finalName_safe (pdfName : string) :
  finalName pdfName = or_else (replace_outside_name_class pdfName) "Doc" ++ ".pdf"
  /\ (forall i, String.get i (replace_outside_name_class pdfName) =
                match String.get i pdfName with
                | Some c => Some (if in_name_class c then c else "_"%char)
                | None => None
                end)
  /\ (replace_outside_name_class pdfName = EmptyString ->
      finalName pdfName = "Doc.pdf")
  /\ Spec.safe_file_name (finalName pdfName)
  /\ (forall dev st w w2,
        Index.pdfName st = pdfName ->
        generatePdf_try dev st w = (Ok tt, w2) ->
        exists file,
          lookup_file (tpl (documentDirectory dev) ++ finalName pdfName) (fs w2)
          = Some file).
Proof.
  split; [reflexivity|]. split; [apply replace_outside_name_class_get|].
  split; [unfold finalName; now intros ->|]. split.
  - unfold finalName, or_else, Spec.safe_file_name.
    destruct (replace_outside_name_class pdfName) as [|c s] eqn:E; simpl.
    + exists "Doc". repeat split; [discriminate|]. repeat constructor.
    + exists (String c s). repeat split; [discriminate|].
      rewrite <- E. apply in_name_class_replaced.
  - intros dev st w w2 <- H.
    destruct (generatePdf_try_fulfilled dev st w w2 H)
      as (imgs & tempUri & rendered & _ & _ & -> & _).
    eexists. apply lookup_store_eq.
Qed.

Lemma string_app_assoc (a b c : string) : (a ++ b) ++ c = a ++ (b ++ c).
Proof.
  induction a as [|x a IH]; [reflexivity|].
  change (String x (((a ++ b) ++ c)) = String x (a ++ (b ++ c))).
  now rewrite IH.
Qed.

Lemma string_app_empty (a : string) : a ++ EmptyString = a.
Proof.
  induction a as [|x a IH]; [reflexivity|].
  change (String x (a ++ EmptyString) = String x a). now rewrite IH.
Qed.

Lemma startsWith_diverges (s tag r : string) :
  Spec.diverges s tag = true -> startsWith (s ++ r) tag = false.
Proof.
  revert tag. induction s as [|a s IH]; intros [|b tag] H; try discriminate.
  simpl in *. destruct (Ascii.eqb a b); [|reflexivity].
  simpl. now apply IH.
Qed.

Lemma occurrences_unfold (tag s : string) :
  Spec.occurrences tag s =
  (if startsWith s tag then 1 else 0)
  + match s with
    | EmptyString => 0
    | String _ s' => Spec.occurrences tag s'
    end.
Proof. now destruct s. Qed.


Lemma startsWith_empty (s : string) : startsWith s EmptyString = true.
Proof. now destruct s. Qed.

Lemma startsWith_char (c b : ascii) (s : string) :
  startsWith (String c s) (String b EmptyString) = Ascii.eqb c b.
Proof. cbn. now rewrite startsWith_empty, andb_true_r. Qed.





Lemma upto_skip (stop p r : string) :
  Spec.tag_never_starts p stop = true ->
  Spec.upto stop (p ++ r) = p ++ Spec.upto stop r.
Proof.
  induction p as [|c p IH]; intros H; [reflexivity|].
  cbn [Spec.tag_never_starts] in H. apply andb_prop in H as [Hd Hn].
  change (String c p ++ r) with (String c (p ++ r)).
  cbn [Spec.upto]. change (String c (p ++ r)) with (String c p ++ r).
  rewrite (startsWith_diverges _ _ r Hd).
  change (String c p ++ Spec.upto stop r) with (String c (p ++ Spec.upto stop r)).
  now rewrite IH.
Qed.

Lemma upto_here (stop r : string) :
  stop <> EmptyString -> Spec.upto stop (stop ++ r) = EmptyString.
Proof.
  intros Hne. destruct stop as [|c stop]; [congruence|].
  change (String c stop ++ r) with (String c (stop ++ r)).
  cbn [Spec.upto]. change (String c (stop ++ r)) with (String c stop ++ r).
  now rewrite startsWith_app.
Qed.

Lemma after_skip (start p r : string) :
  Spec.tag_never_starts p start = true ->
  Spec.after start (p ++ r) = Spec.after start r.
Proof.
  induction p as [|c p IH]; intros H; [reflexivity|].
  cbn [Spec.tag_never_starts] in H. apply andb_prop in H as [Hd Hn].
  change (String c p ++ r) with (String c (p ++ r)).
  cbn [Spec.after]. change (String c (p ++ r)) with (String c p ++ r).
  rewrite (startsWith_diverges _ _ r Hd). now apply IH.
Qed.

Lemma drop_chars_app (a r : string) : drop_chars (String.length a) (a ++ r) = r.
Proof. induction a as [|c a IH]; [now destruct r|exact IH]. Qed.

Lemma after_here (start r : string) :
  start <> EmptyString -> Spec.after start (start ++ r) = Some r.
Proof.
  intros Hne. destruct start as [|c start]; [congruence|].
  change (String c start ++ r) with (String c (start ++ r)).
  cbn [Spec.after]. change (String c (start ++ r)) with (String c start ++ r).
  now rewrite startsWith_app, drop_chars_app.
Qed.

Lemma pages_unfold (html : string) :
  Spec.pages html =
  ((if startsWith html Spec.page_tag then [Spec.upto "</div>" html] else [])
   ++ match html with
      | EmptyString => []
      | String _ s' => Spec.pages s'
      end)%list.
Proof. now destruct html. Qed.

Lemma pages_skip (p r : string) :
  Spec.tag_never_starts p Spec.page_tag = true ->
  Spec.pages (p ++ r) = Spec.pages r.
Proof.
  induction p as [|c p IH]; intros H; [reflexivity|].
  cbn [Spec.tag_never_starts] in H. apply andb_prop in H as [Hd Hn].
  rewrite pages_unfold, (startsWith_diverges _ _ r Hd).
  change (String c p ++ r) with (String c (p ++ r)). cbv iota.
  now rewrite IH.
Qed.

(** The pages counted in a page description are the pages read off it. *)
Lemma pages_length (html : string) :
  length (Spec.pages html) = Spec.page_blocks html.
Proof.
  unfold Spec.page_blocks. induction html as [|c html IH].
  - reflexivity.
  - rewrite pages_unfold, occurrences_unfold, length_app, IH.
    now destruct (startsWith _ _).
Qed.

Lemma never_starts_foreign (s tag : string) (c : ascii) :
  Forall (fun a => Ascii.eqb a c = false) (list_ascii_of_string s) ->
  Spec.tag_never_starts s (String c tag) = true.
Proof.
  induction s as [|a s IH]; intros H; [reflexivity|].
  cbn [list_ascii_of_string] in H. apply Forall_cons in H as [Ha Hs].
  cbn [Spec.tag_never_starts Spec.diverges]. now rewrite Ha, (IH Hs).
Qed.

Lemma base64_text_without (s : string) (c : ascii) :
  Spec.base64_text s -> Spec.is_base64 c = false ->
  Forall (fun a => Ascii.eqb a c = false) (list_ascii_of_string s).
Proof.
  intros H Hc. eapply Forall_impl; [exact H|]. intros a Ha. cbv beta.
  destruct (Ascii.eqb_spec a c) as [->|_]; [congruence|reflexivity].
Qed.

(** An image source is free of tags and quotes when the encoding is
    base64 text. *)
Lemma data_uri_without (base64 : string) (c : ascii) :
  Spec.base64_text base64 -> Spec.is_base64 c = false ->
  Ascii.eqb c ":" = false -> Ascii.eqb c ";" = false -> Ascii.eqb c "," = false ->
  Forall (fun a => Ascii.eqb a c = false)
         (list_ascii_of_string (Spec.data_uri base64)).
Proof.
  intros H Hc H1 H2 H3. unfold Spec.data_uri.
  assert (E : forall p r, list_ascii_of_string (p ++ r) =
                          (list_ascii_of_string p ++ list_ascii_of_string r)%list).
  { intros p r. induction p as [|a p IH]; [reflexivity|].
    change (String a p ++ r) with (String a (p ++ r)). cbn. now rewrite IH. }
  rewrite E, Forall_app. split; [|now apply base64_text_without].
  assert (Hp : Spec.base64_text "dataimage/jpegbase64") by (repeat constructor).
  cbn [list_ascii_of_string].
  repeat (constructor;
          [first [rewrite Ascii.eqb_sym; assumption
                 |match goal with
                  | |- Ascii.eqb ?a c = false =>
                      destruct (Ascii.eqb_spec a c) as [<-|_];
                      [discriminate|reflexivity]
                  end]|]).
  constructor.
Qed.

(** The page a [page_div] makes, and the image read off it. *)
Lemma page_div_pages (src rest : string) :
  Forall (fun a => Ascii.eqb a "<" = false) (list_ascii_of_string src) ->
  Forall (fun a => Ascii.eqb a "034" = false) (list_ascii_of_string src) ->
  exists page,
    Spec.pages (page_div src ++ rest) = page :: Spec.pages rest
    /\ Spec.image_source page = Some src.
Proof.
  intros Hlt Hdq.
  set (img := "<img src=" ++ dq).
  set (shut := dq ++ " />").
  assert (E : page_div src ++ rest =
              Spec.page_tag ++ (img ++ (src ++ (shut ++ ("</div>" ++ rest))))).
  { unfold page_div, Spec.page_tag, img, shut. now rewrite !string_app_assoc. }
  exists (Spec.page_tag ++ (img ++ (src ++ shut))). split.
  - rewrite E, pages_unfold, startsWith_app. cbn [app]. f_equal.
    + rewrite (upto_skip _ Spec.page_tag) by (vm_compute; reflexivity).
      rewrite (upto_skip _ img) by (vm_compute; reflexivity).
      rewrite (upto_skip _ src) by now apply never_starts_foreign.
      rewrite (upto_skip _ shut) by (vm_compute; reflexivity).
      rewrite upto_here by discriminate. now rewrite string_app_empty.
    + change (Spec.page_tag ++ (img ++ (src ++ (shut ++ ("</div>" ++ rest)))))
        with (String "<" (("div class=" ++ dq ++ "page" ++ dq ++ ">")
                          ++ (img ++ (src ++ (shut ++ ("</div>" ++ rest)))))).
      cbv iota.
      rewrite pages_skip by (vm_compute; reflexivity).
      rewrite (pages_skip img) by (vm_compute; reflexivity).
      rewrite (pages_skip src)
        by (change Spec.page_tag with
              (String "<" ("div class=" ++ dq ++ "page" ++ dq ++ ">"));
            now apply never_starts_foreign).
      rewrite (pages_skip shut) by (vm_compute; reflexivity).
      now rewrite (pages_skip "</div>") by (vm_compute; reflexivity).
  - unfold Spec.image_source. fold img.
    rewrite (after_skip _ Spec.page_tag) by (vm_compute; reflexivity).
    rewrite after_here by discriminate.
    rewrite (upto_skip _ src)
      by (change dq with (String "034" EmptyString);
          now apply never_starts_foreign).
    unfold shut. rewrite upto_here by discriminate.
    now rewrite string_app_empty.
Qed.

(** The images of the pages of a body of [page_div]s, before a rest
    without pages, are the image sources in their order. *)
Lemma page_divs_images (sources : list string) (rest : string) :
  Forall (fun src =>
            Forall (fun a => Ascii.eqb a "<" = false) (list_ascii_of_string src)
            /\ Forall (fun a => Ascii.eqb a "034" = false) (list_ascii_of_string src))
         sources ->
  Spec.pages rest = [] ->
  Spec.page_images (join (map page_div sources) ++ rest) = map Some sources.
Proof.
  intros H Hrest. unfold Spec.page_images.
  induction H as [|src sources [Hlt Hdq] _ IH].
  - cbn [map join]. change (EmptyString ++ rest) with rest. now rewrite Hrest.
  - cbn [map join]. rewrite string_app_assoc.
    destruct (page_div_pages src (join (map page_div sources) ++ rest) Hlt Hdq)
      as (page & -> & Hsrc).
    cbn [map]. now rewrite Hsrc, IH.
Qed.

Lemma data_uris_plain (encodings : list string) :
  Forall Spec.base64_text encodings ->
  Forall (fun src =>
            Forall (fun a => Ascii.eqb a "<" = false) (list_ascii_of_string src)
            /\ Forall (fun a => Ascii.eqb a "034" = false) (list_ascii_of_string src))
         (map Spec.data_uri encodings).
Proof.
  intros H. apply Forall_fmap. eapply Forall_impl; [exact H|].
  intros b Hb. cbv beta. split; now apply data_uri_without.
Qed.

(** The page description of the library screen shows the image sources,
    one a page, in their order. *)
Lemma htmlContent_page_images (encodings : list string) :
  Forall Spec.base64_text encodings ->
  Spec.page_images (htmlContent (map Spec.data_uri encodings))
  = map Some (map Spec.data_uri encodings).
Proof.
  intros H. unfold htmlContent, Spec.page_images.
  rewrite pages_skip by (vm_compute; reflexivity).
  apply page_divs_images; [now apply data_uris_plain|].
  vm_compute. reflexivity.
Qed.

(** So does the page description of the sibling revision, for every sheet
    colour and image filter. *)
Lemma sibling_htmlContent_page_images (color : Sibling.SheetColor)
      (filter : Sibling.ImageFilter) (encodings : list string) :
  Forall Spec.base64_text encodings ->
  Spec.page_images (Sibling.htmlContent color filter (map Spec.data_uri encodings))
  = map Some (map Spec.data_uri encodings).
Proof.
  intros H. unfold Sibling.htmlContent, Spec.page_images.
  repeat rewrite <- string_app_assoc.
  rewrite string_app_assoc.
  rewrite pages_skip by (destruct color, filter; vm_compute; reflexivity).
  apply page_divs_images; [now apply data_uris_plain|].
  vm_compute. reflexivity.
Qed.

Lemma encodeImage_all (w : World) (images encodings : list string) :
  Forall2 (fun uri base64 => readAsStringAsync uri w = Ok base64) images encodings ->
  map (fun uri => encodeImage uri w) images = map Ok (map Spec.data_uri encodings).
Proof.
  induction 1 as [|uri b64 images encodings H _ IH]; simpl; [reflexivity|].
  rewrite IH. unfold encodeImage at 1. now rewrite H.
Qed.

Lemma generatePdf_try_reads (dev : Device) (st : State) (w : World)
      (encodings : list string) :
  Forall2 (fun uri base64 => readAsStringAsync uri w = Ok base64)
          (selectedImages st) encodings ->
  generatePdf_try dev st w =
  match printService w (htmlContent (map Spec.data_uri encodings)) with
  | Ok (tempUri, rendered) =>
      let w1 := with_fs w (store_file tempUri rendered (fs w)) in
      (Ok tt,
       with_fs w1
         (store_file (tpl (documentDirectory dev) ++ finalName (pdfName st))
            {| data := data rendered; Expo.size := Expo.size rendered;
               modificationTime := (inject_Z (clock w) / 1000)%Q |}
            (fs w1)))
  | Throw m => (Throw m, w)
  end.
Proof.
  intros H. unfold generatePdf_try, bind, reading, printToFileAsync, copyAsync.
  rewrite (encodeImage_all w _ _ H), Promise_all_fulfilled.
  destruct (printService w _) as [[tempUri rendered]|m]; [|reflexivity].
  cbn [fs with_fs]. now rewrite lookup_store_eq.
Qed.

Lemma generatePdf_converted (dev : Device) (st : State) (w : World)
      (encodings : list string) (tempUri : string) (rendered : FileData) :
  selectedImages st <> [] ->
  Forall2 (fun uri base64 => readAsStringAsync uri w = Ok base64)
          (selectedImages st) encodings ->
  printService w (htmlContent (map Spec.data_uri encodings)) = Ok (tempUri, rendered) ->
  let w1 := with_fs w (store_file tempUri rendered (fs w)) in
  let w2 := with_fs w1
              (store_file (tpl (documentDirectory dev) ++ finalName (pdfName st))
                 {| data := data rendered; Expo.size := Expo.size rendered;
                    modificationTime := (inject_Z (clock w) / 1000)%Q |}
                 (fs w1)) in
  generatePdf dev st w =
  (setIsProcessing false
     (setSelectedImages []
        (setShowDraftModal false (loadLibrary dev true (setIsProcessing true st) w2))),
   w2).
Proof.
  intros Hne Hreads Hprint. unfold generatePdf.
  destruct (selectedImages st) as [|x l] eqn:E; [congruence|]. cbn [length Nat.eqb].
  rewrite (generatePdf_try_reads dev _ w encodings)
    by (cbn [selectedImages setIsProcessing]; now rewrite E).
  now rewrite Hprint.
Qed.



Lemma generatePdf_try_alerts (dev : Device) (st : State) (w : World) :
  alerts (snd (generatePdf_try dev st w)) = alerts w.
Proof.
  unfold generatePdf_try, bind, reading, printToFileAsync, copyAsync.
  destruct (Promise_all _ _) as [imgs|m]; [|reflexivity].
  destruct (printService w (htmlContent imgs)) as [[tempUri rendered]|m];
    [|reflexivity].
  cbn [fs with_fs]. now rewrite lookup_store_eq.
Qed.

(** A selected image that cannot be read makes the conversion fail. *)
Lemma generatePdf_try_unreadable (dev : Device) (st : State) (w : World)
      (i : nat) (uri : string) :
  selectedImages st !! i = Some uri ->
  lookup_file uri (fs w) = None ->
  exists message, generatePdf_try dev st w = (Throw message, w).
Proof.
  intros Hi Hf. unfold generatePdf_try, bind, reading.
  destruct (Promise_all_rejected (delay w)
              (map (fun uri => encodeImage uri w) (selectedImages st)) i
              ("File '" ++ uri ++ "' is not readable")) as (m & -> & _).
  - rewrite list_lookup_fmap, Hi. cbn [fmap option_fmap option_map].
    unfold encodeImage, readAsStringAsync. now rewrite Hf.
  - now exists m.
Qed.

(** C9. From Reviewing, the conversion passes through Converting; when a
    step of it fails the screen is back in Reviewing with the state, and so
    the draft, as before and the failure's message in an alert; when it
    succeeds the draft is empty and the screen is Idle. *)
Theorem generatePdf_outcome (dev : Device) (st : State) (w : World) :
  selectedImages st <> [] ->
  Spec.phase st = Spec.Reviewing ->
  let converting := setIsProcessing true st in
  let st' := fst (generatePdf dev st w) in
  let w' := snd (generatePdf dev st w) in
  Spec.phase converting = Spec.Converting
  /\ (forall message w1,
        generatePdf_try dev converting w = (Throw message, w1) ->
        Spec.phase st' = Spec.Reviewing
        /\ selectedImages st' = selectedImages st
        /\ st' = st
        /\ alerts w' = (alerts w ++ [("Failed", message)])%list)
  /\ (forall w2,
        generatePdf_try dev converting w = (Ok tt, w2) ->
        Spec.phase st' = Spec.Idle
        /\ selectedImages st' = []
        /\ alerts w' = alerts w).
Proof.
  intros Hne Hph converting st' w'.
  assert (Hflags : showDraftModal st = true /\ isProcessing st = false).
  { unfold Spec.phase in Hph.
    destruct (showDraftModal st), (isProcessing st); try discriminate; auto. }
  destruct Hflags as [Hshow Hproc].
  assert (Hgen : generatePdf dev st w =
                 match generatePdf_try dev converting w with
                 | (Ok _, w1) =>
                     (setIsProcessing false
                        (setSelectedImages []
                           (setShowDraftModal false (loadLibrary dev true converting w1))),
                      w1)
                 | (Throw message, w1) =>
                     (setIsProcessing false converting, Alert_alert "Failed" message w1)
                 end).
  { unfold generatePdf. destruct (selectedImages st); [congruence|reflexivity]. }
  split; [|split].
  - unfold Spec.phase, converting. cbn. now rewrite Hshow.
  - intros message w1 Htry. subst st' w'. rewrite Hgen, Htry. cbn [fst snd].
    assert (Est : setIsProcessing false converting = st).
    { unfold converting. destruct st. cbn in Hproc |- *. now rewrite Hproc. }
    rewrite Est. repeat split; [exact Hph|].
    cbn [alerts Alert_alert]. f_equal.
    pose proof (generatePdf_try_alerts dev converting w) as Ha.
    now rewrite Htry in Ha.
  - intros w2 Htry. subst st' w'. rewrite Hgen, Htry. cbn [fst snd].
    repeat split.
    pose proof (generatePdf_try_alerts dev converting w) as Ha.
    now rewrite Htry in Ha.
Qed.

Lemma generatePdf_outcome_witness :
  fst (generatePdf Sample.device Sample.draft Sample.failing_world) = Sample.draft
  /\ alerts (snd (generatePdf Sample.device Sample.draft Sample.failing_world))
     = [("Failed", "Printing did not complete")].
Proof.
  assert (Hne : selectedImages Sample.draft <> []) by discriminate.
  destruct (generatePdf_outcome Sample.device Sample.draft Sample.failing_world
              Hne eq_refl) as (_ & Hfail & _).
  destruct (Hfail "Printing did not complete" Sample.failing_world eq_refl)
    as (_ & _ & Hst & Hal).
  split; [exact Hst|exact Hal].
Defined.

(** ** Renaming *)

(** The rename of the sibling revision rejects an empty name without
    touching anything, and a taken name with an alert and the files as they
    were. *)
Lemma saveRename_rejects (dev : Device) (doc : PdfDoc) (st : Sibling.State) (w : World) :
  let value := trim (Sibling.editingValue st) in
  let newUri := tpl (documentDirectory dev) ++ value ++ ".pdf" in
  (value = EmptyString ->
   Sibling.saveRename dev doc st w = (Sibling.setEditingId None st, w))
  /\ (forall existing,
        value <> EmptyString ->
        value <> replace (name doc) ".pdf" EmptyString ->
        infoFault w newUri = None ->
        lookup_file newUri (fs w) = Some existing ->
        Sibling.saveRename dev doc st w =
        (Sibling.setEditingId None st,
         Alert_alert "Error" "A file with this name already exists." w)
        /\ fs (snd (Sibling.saveRename dev doc st w)) = fs w).
Proof.
  intros value newUri. split.
  - intros E. unfold Sibling.saveRename. fold value. now rewrite E.
  - intros existing Hv Hsame Hi Hf.
    assert (E : Sibling.saveRename dev doc st w =
                (Sibling.setEditingId None st,
                 Alert_alert "Error" "A file with this name already exists." w)).
    { unfold Sibling.saveRename. fold value. fold newUri.
      destruct value as [|c v] eqn:Ev; [congruence|]. cbn [truthy negb orb].
      apply String.eqb_neq in Hsame. rewrite Hsame.
      unfold getInfoAsync. now rewrite Hi, Hf. }
    split; [exact E|]. now rewrite E.
Qed.

Lemma trim_blank (s : string) :
  Forall (fun c => is_space c = true) (list_ascii_of_string s) ->
  trim s = EmptyString.
Proof.
  unfold trim. induction s as [|c s IH]; intros H; [reflexivity|].
  cbn [list_ascii_of_string] in H. apply Forall_cons in H as [Hc Hs].
  cbn [trimStart]. rewrite Hc. now apply IH.
Qed.

(** Both renames leave everything as it is when the new name is empty or
    white space. *)
Lemma confirmRename_blank (dev : Device) (st : State) (w : World) :
  trim (newFileName st) = EmptyString -> confirmRename dev st w = (st, w).
Proof.
  intros E. unfold confirmRename. rewrite E.
  now destruct (renamingItem st).
Qed.

(** The rename of the library screen, on a name that is taken: the copy
    goes over the existing file and the original is deleted, with no
    alert. *)
Lemma confirmRename_replaces (dev : Device) (st : State) (w : World)
      (doc : PdfDoc) (source existing : FileData) :
  renamingItem st = Some doc ->
  trim (newFileName st) <> EmptyString ->
  let newUri := tpl (documentDirectory dev) ++ trim (newFileName st) ++ ".pdf" in
  lookup_file (uri doc) (fs w) = Some source ->
  lookup_file newUri (fs w) = Some existing ->
  uri doc <> newUri ->
  let w' := snd (confirmRename dev st w) in
  alerts w' = alerts w
  /\ lookup_file (uri doc) (fs w') = None
  /\ exists copy, lookup_file newUri (fs w') = Some copy /\ data copy = data source.
Proof.
  intros Hdoc Hname newUri Hsrc Hdst Hne w'.
  subst w'. unfold confirmRename. rewrite Hdoc.
  destruct (trim (newFileName st)) as [|c v] eqn:Ev; [congruence|].
  cbn [truthy negb]. fold newUri.
  unfold copyAsync. rewrite Hsrc. unfold deleteAsync. cbn [fs with_fs].
  rewrite lookup_store_ne, Hsrc by congruence. cbn [snd fs with_fs alerts].
  split; [reflexivity|]. split; [apply lookup_remove_eq|].
  eexists. rewrite lookup_remove_ne by assumption.
  split; [apply lookup_store_eq|reflexivity].
Qed.

(** C1, at the failing input. Renaming Doc1.pdf to Doc2 while Doc2.pdf
    exists: the library screen raises no alert, Doc1.pdf is gone and
    Doc2.pdf holds the content of Doc1.pdf; the sibling revision raises
    the alert and leaves both files. *)
Theorem confirmRename_overwrites_existing :
  let w := Sample.library_world in
  let w' := snd (confirmRename Sample.device Sample.renaming w) in
  let v := snd (Sibling.saveRename Sample.device Sample.doc1 Sample.editing w) in
  (data <$> lookup_file "file:///data/documents/Doc1.pdf" (fs w) = Some "JVBERi0xLjQKJcfs"
   /\ data <$> lookup_file "file:///data/documents/Doc2.pdf" (fs w) = Some "JVBERi0xLjcKJeLj")
  /\ (alerts w' = []
      /\ lookup_file "file:///data/documents/Doc1.pdf" (fs w') = None
      /\ data <$> lookup_file "file:///data/documents/Doc2.pdf" (fs w') = Some "JVBERi0xLjQKJcfs"
      /\ map name (pdfs (fst (confirmRename Sample.device Sample.renaming w))) = ["Doc2.pdf"])
  /\ (alerts v = [("Error", "A file with this name already exists.")]
      /\ fs v = fs w).
Proof. vm_compute. repeat split. Qed.

(** ** The sibling revision against the library screen *)

(** Inside the draft the unguarded swap of the sibling revision does what
    the guarded one does. *)
Lemma sibling_swapImages_inside (st : State) (sst : Sibling.State) (i j : Z) :
  Sibling.selectedImages sst = map Some (selectedImages st) ->
  i <> j ->
  (0 <= i < Z.of_nat (length (selectedImages st)))%Z ->
  (0 <= j < Z.of_nat (length (selectedImages st)))%Z ->
  Sibling.selectedImages (Sibling.swapImages i j sst) =
  map Some (selectedImages (swapImages i j st)).
Proof.
  intros E Hij Hi Hj.
  destruct (swapImages_inside st i j Hij Hi Hj) as (a & b & Ha & Hb & ->).
  unfold Sibling.swapImages. cbn [Sibling.selectedImages Sibling.setSelectedImages
                                  selectedImages setSelectedImages].
  rewrite E. unfold item, assign.
  destruct (i <? 0)%Z eqn:E1; [lia|]. destruct (j <? 0)%Z eqn:E2; [lia|].
  rewrite !list_lookup_fmap, Ha, Hb. cbn [fmap option_fmap option_map].
  rewrite length_map.
  destruct (Z.to_nat i <? length (selectedImages st))%nat eqn:E3;
    [|apply Nat.ltb_ge in E3; lia].
  rewrite length_insert, length_map.
  destruct (Z.to_nat j <? length (selectedImages st))%nat eqn:E4;
    [|apply Nat.ltb_ge in E4; lia].
  now rewrite !list_fmap_insert.
Qed.

(** Outside the draft it does not leave the draft alone. *)
Example sibling_swapImages_outside :
  Sibling.selectedImages
    (Sibling.swapImages 0 5
       {| Sibling.pdfs := []; Sibling.isLoadingLibrary := false;
          Sibling.isRefreshing := false;
          Sibling.selectedImages := [Some "A"; Some "B"; Some "C"];
          Sibling.editingId := None; Sibling.editingValue := EmptyString |})
  = [None; Some "B"; Some "C"; None; None; Some "A"].
Proof. reflexivity. Qed.

(** In the sibling revision one failed metadata read abandons the whole
    refresh: the document list stays as it was. *)
Lemma sibling_loadLibrary_abandons (dev : Device) (docDir : string) (w : World)
      (sst : Sibling.State) (fileName message : string) (showSpinner : bool) :
  documentDirectory dev = Some docDir -> docDir <> EmptyString ->
  listFault w = None ->
  fileName ∈ Spec.pdf_entries docDir w ->
  infoFault w (docDir ++ fileName) = Some message ->
  Sibling.pdfs (Sibling.loadLibrary dev showSpinner sst w) = Sibling.pdfs sst.
Proof.
  intros Hd Hne Hl Hin Hfault. unfold Sibling.loadLibrary. rewrite Hd.
  destruct docDir as [|c d]; [congruence|]. cbn [truthy negb].
  unfold readDirectoryAsync. rewrite Hl.
  apply list_elem_of_lookup in Hin as [i Hi].
  destruct (Promise_all_rejected (delay w)
              (map (fun f => Sibling.fileEntry dev (String c d) f w)
                   (Spec.pdf_entries (String c d) w)) i message) as (m & E & _).
  - rewrite list_lookup_fmap, Hi. cbn [fmap option_fmap option_map].
    unfold Sibling.fileEntry, getInfoAsync. now rewrite Hfault.
  - unfold Spec.pdf_entries, Spec.listing in E. rewrite E.
    now destruct showSpinner.
Qed.

(** The drag handler of the sibling revision calls its swap only with two
    different indices inside the draft. *)
Lemma sibling_onEnd_inside (dev : Device) (dx dy : Q) (index total : Z)
      (sst : Sibling.State) :
  (0 <= index < total)%Z ->
  Sibling.onEnd dev dx dy index total sst = sst
  \/ exists target,
       (0 <= target < total)%Z /\ target <> index
       /\ Sibling.onEnd dev dx dy index total sst =
          Sibling.swapImages index target sst.
Proof.
  intros Hin. unfold Sibling.onEnd. cbv zeta.
  set (target := Math_max 0 _).
  destruct (target =? index)%Z eqn:E; [now left|right].
  exists target. apply Z.eqb_neq in E.
  split; [|split; [exact E|reflexivity]].
  unfold target, Math_max, Math_min. lia.
Qed.

(** The sibling revision stores a draft under its trimmed name as it is. *)
Example sibling_finalName_unsanitized :
  Sibling.finalName " notes/2024 " = "notes/2024.pdf"
  /\ finalName " notes/2024 " = "_notes_2024_.pdf".
Proof. split; reflexivity. Qed.

(** In the sibling revision the card keeps the aspect ratio 0.75, and the
    row pitch its drag handler divides by is not its cell height plus the
    gap. *)
Lemma sibling_row_pitch (dev : Device) :
  ~ (Sibling.ITEM_WIDTH dev == 0)%Q ->
  ~ (Sibling.ITEM_WIDTH dev * (125 # 100) + Sibling.GAP
     == Sibling.cellHeight dev + Sibling.GAP)%Q.
Proof.
  unfold Sibling.cellHeight, Sibling.aspectRatio. intros Hw E. apply Hw.
  assert (H : (Sibling.ITEM_WIDTH dev / (75 # 100)
               == Sibling.ITEM_WIDTH dev * (4 # 3))%Q) by field.
  rewrite H in E. lra.
Qed.

(** ** Listing and deleting *)

Lemma strip_prefix_Some (p s n : string) :
  strip_prefix p s = Some n -> s = p ++ n.
Proof.
  revert s. induction p as [|a p IH]; intros s H.
  - destruct s; cbn in H; now injection H as <-.
  - destruct s as [|b s]; cbn in H; [discriminate|].
    destruct (Ascii.eqb_spec a b) as [->|_]; [|discriminate].
    change (String b p ++ n) with (String b (p ++ n)). f_equal. now apply IH.
Qed.

Lemma strip_prefix_app (p n : string) : strip_prefix p (p ++ n) = Some n.
Proof.
  induction p as [|a p IH]; [now destruct n|].
  change (String a p ++ n) with (String a (p ++ n)). cbn.
  now rewrite Ascii.eqb_refl.
Qed.

Lemma entry_name_Some (dir u n : string) :
  entry_name dir u = Some n -> u = dir ++ n.
Proof.
  unfold entry_name. destruct (strip_prefix dir u) as [m|] eqn:E; [|discriminate].
  destruct (truthy m && negb (includes m "/")); [|discriminate].
  intros [= <-]. now apply strip_prefix_Some.
Qed.

Lemma entry_name_app (dir n : string) :
  n <> EmptyString -> includes n "/" = false ->
  entry_name dir (dir ++ n) = Some n.
Proof.
  intros Hn Hs. unfold entry_name. rewrite strip_prefix_app, Hs.
  now destruct n.
Qed.

Lemma List_filter_comm {A : Type} (p q : A -> bool) (l : list A) :
  List.filter p (List.filter q l) = List.filter q (List.filter p l).
Proof.
  induction l as [|x l IH]; [reflexivity|]. cbn.
  destruct (q x) eqn:Eq, (p x) eqn:Ep; cbn; rewrite ?Eq, ?Ep, IH; reflexivity.
Qed.

Lemma listing_remove (docDir f : string) (files : list (string * FileData)) :
  omap (fun e => entry_name docDir (fst e)) (remove_file (docDir ++ f) files) =
  List.filter (fun n => negb (String.eqb n f))
              (omap (fun e => entry_name docDir (fst e)) files).
Proof.
  induction files as [|[u g] files IH]; [reflexivity|].
  cbn [remove_file omap list_omap fst].
  destruct (String.eqb_spec u (docDir ++ f)) as [->|Hne].
  - rewrite IH. destruct (entry_name docDir (docDir ++ f)) as [n|] eqn:E;
      [|reflexivity].
    apply entry_name_Some, append_cancel in E as <-.
    cbn. now rewrite String.eqb_refl.
  - cbn [omap list_omap fst]. rewrite IH.
    destruct (entry_name docDir u) as [n|] eqn:E; [|reflexivity].
    cbn. destruct (String.eqb_spec n f) as [->|_]; [|reflexivity].
    apply entry_name_Some in E. contradiction.
Qed.

Lemma pdf_entries_remove (docDir f : string) (w w1 : World) :
  fs w1 = remove_file (docDir ++ f) (fs w) ->
  Spec.pdf_entries docDir w1 =
  List.filter (fun n => negb (String.eqb n f)) (Spec.pdf_entries docDir w).
Proof.
  intros E. unfold Spec.pdf_entries, Spec.listing.
  now rewrite E, listing_remove, List_filter_comm.
Qed.





(** ** What a refresh leaves of the screen *)

Lemma loadLibrary_listed (dev : Device) (docDir : string) (showSpinner : bool)
      (st : State) (w : World) :
  documentDirectory dev = Some docDir -> docDir <> EmptyString ->
  listFault w = None ->
  let sorted := Array_sort (fun a b => (timestamp b - timestamp a)%Q)
                  (map (Spec.entry dev docDir w) (Spec.pdf_entries docDir w)) in
  loadLibrary dev showSpinner st w =
  loadLibrary_finally
    (applyFilter (searchQuery st) sorted
       (setPdfs sorted (if showSpinner then setIsLoadingLibrary true st else st))).
Proof.
  intros Hd Hne Hl. unfold loadLibrary. rewrite Hd.
  destruct docDir as [|c d]; [congruence|]. cbn [truthy negb].
  unfold readDirectoryAsync. rewrite Hl.
  rewrite (Promise_all_map_fulfilled _ _ (Spec.entry dev (String c d) w))
    by (intros; apply fileEntry_fulfilled).
  now destruct showSpinner.
Qed.




(** X3. On every path a refresh ends with both spinners off and leaves
    the search text, the draft and the rename dialog as they were; when the
    documents directory is missing or cannot be listed it also leaves the
    document list and the shown list. *)
Theorem loadLibrary_frame (dev : Device) (showSpinner : bool) (st : State) (w : World) :
  let st' := loadLibrary dev showSpinner st w in
  (isLoadingLibrary st' = false /\ isRefreshing st' = false)
  /\ (searchQuery st' = searchQuery st
      /\ selectedImages st' = selectedImages st
      /\ isProcessing st' = isProcessing st
      /\ showDraftModal st' = showDraftModal st
      /\ pdfName st' = pdfName st
      /\ isRenameModalVisible st' = isRenameModalVisible st
      /\ renamingItem st' = renamingItem st
      /\ newFileName st' = newFileName st)
  /\ ((documentDirectory dev = None
       \/ documentDirectory dev = Some EmptyString
       \/ listFault w <> None) ->
      pdfs st' = pdfs st /\ filteredPdfs st' = filteredPdfs st).
Proof.
  intros st'. subst st'. unfold loadLibrary.
  destruct (documentDirectory dev) as [[|c d]|] eqn:Hd; cbn [truthy negb].
  - destruct showSpinner; repeat split.
  - unfold readDirectoryAsync.
    destruct (listFault w) as [m|] eqn:Hl.
    + destruct showSpinner; repeat split.
    + destruct (Promise_all _ _) as [docs|m].
      * unfold applyFilter. destruct (negb (truthy _)), showSpinner;
          (split; [split; reflexivity|]); (split; [repeat split|]);
          intros [H|[H|H]]; congruence.
      * destruct showSpinner; (split; [split; reflexivity|]);
          (split; [repeat split|]); intros [H|[H|H]]; congruence.
  - destruct showSpinner; repeat split.
Qed.

(** ** Searching *)

Lemma toLowerCase_empty (s : string) : toLowerCase s = EmptyString -> s = EmptyString.
Proof. now destruct s. Qed.








(** ** Names of drafts *)

Lemma replace_outside_name_class_fixed (s : string) :
  Forall (fun c => in_name_class c = true) (list_ascii_of_string s) ->
  replace_outside_name_class s = s.
Proof.
  induction s as [|c s IH]; intros H; [reflexivity|].
  cbn [list_ascii_of_string] in H. apply Forall_cons in H as [Hc Hs].
  cbn. now rewrite Hc, IH.
Qed.

(** X6. Cleaning a draft name twice is cleaning it once, and a non-empty
    name over letters, digits, underscore and hyphen is stored as it is,
    followed by .pdf. *)
Theorem finalName_fixes_clean_names (pdfName : string) :
  replace_outside_name_class (replace_outside_name_class pdfName)
  = replace_outside_name_class pdfName
  /\ (pdfName <> EmptyString ->
      Forall (fun c => in_name_class c = true) (list_ascii_of_string pdfName) ->
      finalName pdfName = pdfName ++ ".pdf")
  /\ (pdfName <> EmptyString ->
      finalName (replace_outside_name_class pdfName) = finalName pdfName).
Proof.
  assert (Hidem : replace_outside_name_class (replace_outside_name_class pdfName)
                  = replace_outside_name_class pdfName)
    by apply replace_outside_name_class_fixed, in_name_class_replaced.
  split; [exact Hidem|]. split.
  - intros Hne Hall. unfold finalName.
    rewrite (replace_outside_name_class_fixed _ Hall). now destruct pdfName.
  - intros _. unfold finalName. now rewrite Hidem.
Qed.

Lemma list_ascii_of_string_app (a b : string) :
  list_ascii_of_string (a ++ b) =
  (list_ascii_of_string a ++ list_ascii_of_string b)%list.
Proof.
  induction a as [|c a IH]; [reflexivity|].
  change (String c a ++ b) with (String c (a ++ b)). cbn. now rewrite IH.
Qed.

Lemma decimal_in_name_class (n : N) :
  Forall (fun c => in_name_class c = true) (list_ascii_of_string (decimal n)).
Proof.
  unfold decimal. induction (N.to_uint n) as [|d IH|d IH|d IH|d IH|d IH|d IH|d IH|d IH|d IH|d IH];
    cbn; constructor; try reflexivity; exact IH.
Qed.

(** X7. The name [pickImages] proposes for a new draft, Doc_ followed by
    the hour, minute and second, passes the cleaning of [generatePdf]
    unchanged: the draft is stored under that name followed by .pdf. *)
Theorem pickImages_proposes_clean_name (uris : list string) (hours minutes seconds : N)
        (st : State) (w : World) :
  let st' := fst (pickImages false "granted" (Assets uris) hours minutes seconds st w) in
  finalName (pdfName st') =
  "Doc_" ++ decimal hours ++ decimal minutes ++ decimal seconds ++ ".pdf"
  /\ Spec.safe_file_name (finalName (pdfName st'))
  /\ selectedImages st' = uris
  /\ showDraftModal st' = true.
Proof.
  intros st'. subst st'. cbn [pickImages String.eqb Ascii.eqb Bool.eqb negb fst].
  cbn [pdfName setPdfName setShowDraftModal setSelectedImages selectedImages showDraftModal].
  set (dateStr := "Doc_" ++ decimal hours ++ decimal minutes ++ decimal seconds).
  assert (Hclean : Forall (fun c => in_name_class c = true) (list_ascii_of_string dateStr)).
  { unfold dateStr. rewrite !list_ascii_of_string_app, !Forall_app.
    repeat split; try apply decimal_in_name_class. repeat constructor. }
  assert (E : finalName dateStr = dateStr ++ ".pdf").
  { unfold finalName. now rewrite (replace_outside_name_class_fixed _ Hclean). }
  split; [|split; [|split; reflexivity]].
  - rewrite E. unfold dateStr. now rewrite !string_app_assoc.
  - rewrite E. exists dateStr. repeat split; [discriminate|exact Hclean].
Qed.

(** ** The draft under its handlers *)

Lemma insert_head_perm {A : Type} (t : list A) (j : nat) (y h : A) :
  t !! j = Some y -> y :: <[j := h]> t ≡ₚ h :: t.
Proof.
  revert j. induction t as [|a t IH]; intros [|j] H; try discriminate.
  - injection H as ->. apply Permutation_swap.
  - cbn in H |- *. rewrite (Permutation_swap a y), (IH j H).
    apply Permutation_swap.
Qed.

Lemma exchange_perm {A : Type} (l : list A) (i j : nat) (x y : A) :
  i <> j -> l !! i = Some x -> l !! j = Some y ->
  <[j := x]> (<[i := y]> l) ≡ₚ l.
Proof.
  revert i j. induction l as [|h t IH]; intros [|i] [|j] Hij Hi Hj;
    try discriminate; try congruence; cbn in Hi, Hj |- *.
  - injection Hi as ->. now apply insert_head_perm.
  - injection Hj as ->. now apply insert_head_perm.
  - constructor. apply IH; [lia|assumption..].
Qed.

Lemma swapImages_perm (st : State) (i j : Z) :
  selectedImages (swapImages i j st) ≡ₚ selectedImages st
  /\ showDraftModal (swapImages i j st) = showDraftModal st.
Proof.
  destruct (decide (i <> j
                    /\ (0 <= i < Z.of_nat (length (selectedImages st)))%Z
                    /\ (0 <= j < Z.of_nat (length (selectedImages st)))%Z))
    as [(Hij & Hi & Hj)|Hno].
  - destruct (swapImages_inside st i j Hij Hi Hj) as (a & b & Ha & Hb & ->).
    split; [|reflexivity]. cbn [selectedImages setSelectedImages].
    apply exchange_perm; [lia|assumption..].
  - rewrite swapImages_noop by lia. now split.
Qed.

Lemma onEnd_swaps (dev : Device) (dx dy : Q) (index total : Z) (st : State) :
  exists target, onEnd dev dx dy index total st = swapImages index target st.
Proof.
  unfold onEnd. cbv zeta. set (target := Math_max 0 _).
  destruct (target =? index)%Z eqn:E; cbn [negb].
  - exists index. symmetry. apply swapImages_noop. now left.
  - now exists target.
Qed.

Lemma delete_outside {A : Type} (l : list A) (i : nat) :
  length l <= i -> delete i l = l.
Proof.
  revert i. induction l as [|x l IH]; intros [|i] H; cbn in *; try reflexivity;
    [lia|]. f_equal. apply IH. lia.
Qed.

Lemma removeImage_any (index : Z) (st : State) :
  selectedImages (removeImage index st) =
  if (index <? 0)%Z then selectedImages st
  else delete (Z.to_nat index) (selectedImages st).
Proof.
  assert (E : Array_filter (fun (_ : string) i => negb (Z.of_nat i =? index)%Z)
                (selectedImages st)
              = if (index <? 0)%Z then selectedImages st
                else delete (Z.to_nat index) (selectedImages st)).
  { destruct (index <? 0)%Z eqn:En.
    - apply Z.ltb_lt in En. unfold Array_filter. generalize 0 as k.
      induction (selectedImages st) as [|x l IH]; intros k; [reflexivity|]. cbn.
      destruct (Z.of_nat k =? index)%Z eqn:Ek; [apply Z.eqb_eq in Ek; lia|].
      cbn. now rewrite IH.
    - apply Z.ltb_ge in En. unfold Array_filter.
      destruct (Z_of_nat_complete index En) as [n ->].
      rewrite filter_from_skips, Nat.sub_0_r, Nat2Z.id.
      destruct (decide (0 <= n)); [reflexivity|lia]. }
  unfold removeImage. rewrite E.
  now destruct (Nat.eqb (length _) 0).
Qed.

(** X8. Reordering never loses or doubles an image: after [swapImages]
    and after the drag handler the draft holds the same images as before,
    for all indices and displacements; [removeImage] leaves a subsequence
    that is at most one image shorter, and the draft itself when the index
    is outside it. *)
Theorem draft_keeps_images (dev : Device) (st : State) :
  (forall i j, selectedImages (swapImages i j st) ≡ₚ selectedImages st)
  /\ (forall dx dy index total,
        selectedImages (onEnd dev dx dy index total st) ≡ₚ selectedImages st)
  /\ (forall index,
        selectedImages (removeImage index st) `sublist_of` selectedImages st
        /\ length (selectedImages st) <= S (length (selectedImages (removeImage index st)))
        /\ (~ (0 <= index < Z.of_nat (length (selectedImages st)))%Z ->
            selectedImages (removeImage index st) = selectedImages st)).
Proof.
  split; [intros i j; apply swapImages_perm|]. split.
  - intros dx dy index total.
    destruct (onEnd_swaps dev dx dy index total st) as [target ->].
    apply swapImages_perm.
  - intros index. rewrite removeImage_any.
    destruct (index <? 0)%Z eqn:En.
    + split; [reflexivity|]. split; [lia|reflexivity].
    + apply Z.ltb_ge in En. split; [apply sublist_delete|]. split.
      * destruct (decide (Z.to_nat index < length (selectedImages st))) as [Hlt|Hge].
        -- rewrite length_delete by now apply lookup_lt_is_Some_2. lia.
        -- rewrite delete_outside by lia. lia.
      * intros Hout. apply delete_outside. lia.
Qed.

(** X9. While the draft modal is open the draft is not empty, and every
    handler of the draft keeps it so: removing, swapping, dragging, picking
    (the picker returning at least one image when it is not canceled) and
    converting, whether the conversion succeeds or fails. *)
Theorem handlers_keep_open_draft (dev : Device) (st : State) (w : World) :
  Spec.open_draft_holds_image st ->
  (forall index, Spec.open_draft_holds_image (removeImage index st))
  /\ (forall i j, Spec.open_draft_holds_image (swapImages i j st))
  /\ (forall dx dy index total,
        Spec.open_draft_holds_image (onEnd dev dx dy index total st))
  /\ (forall isAppending status result hours minutes seconds,
        result <> Assets [] ->
        Spec.open_draft_holds_image
          (fst (pickImages isAppending status result hours minutes seconds st w)))
  /\ Spec.open_draft_holds_image (fst (generatePdf dev st w)).
Proof.
  unfold Spec.open_draft_holds_image. intros Hst.
  assert (Hswap : forall i j, showDraftModal (swapImages i j st) = true ->
                              selectedImages (swapImages i j st) <> []).
  { intros i j Hopen. destruct (swapImages_perm st i j) as [Hp Hs].
    rewrite Hs in Hopen. intros E. rewrite E in Hp.
    apply Permutation_nil in Hp. now apply Hst. }
  split; [|split; [exact Hswap|split; [|split]]].
  - intros index. unfold removeImage.
    destruct (Nat.eqb (length _) 0) eqn:En; cbn; [discriminate|].
    intros _ E. rewrite E in En. discriminate.
  - intros dx dy index total.
    destruct (onEnd_swaps dev dx dy index total st) as [target ->]. apply Hswap.
  - intros isAppending status result hours minutes seconds Hres. unfold pickImages.
    destruct (negb (String.eqb status "granted")); [exact Hst|].
    destruct result as [|uris]; [exact Hst|].
    destruct isAppending; cbn.
    + intros Hopen E. apply app_eq_nil in E as [E _]. now apply Hst.
    + intros _ E. apply Hres. now rewrite E.
  - unfold generatePdf.
    destruct (Nat.eqb (length (selectedImages st)) 0); [exact Hst|].
    destruct (generatePdf_try dev (setIsProcessing true st) w) as [[u|m] w1]; cbn.
    + discriminate.
    + exact Hst.
Qed.

Lemma handlers_keep_open_draft_witness :
  Spec.open_draft_holds_image
    (fst (generatePdf Sample.device Sample.draft Sample.failing_world)).
Proof.
  assert (H : Spec.open_draft_holds_image Sample.draft) by (intros _; discriminate).
  exact (proj2 (proj2 (proj2 (proj2
    (handlers_keep_open_draft Sample.device Sample.draft Sample.failing_world H))))).
Defined.

(** ** The converted document in the library *)

Lemma store_file_keys (uri : string) (f : FileData) (l : list (string * FileData)) :
  map fst (store_file uri f l) =
  match lookup_file uri l with
  | Some _ => map fst l
  | None => (map fst l ++ [uri])%list
  end.
Proof.
  induction l as [|[u g] l IH]; [reflexivity|]. cbn.
  destruct (String.eqb u uri) eqn:E; [reflexivity|]. cbn. rewrite IH.
  now destruct (lookup_file uri l).
Qed.

Lemma listing_elem (docDir n : string) (files : list (string * FileData))
      (file : FileData) :
  lookup_file (docDir ++ n) files = Some file ->
  entry_name docDir (docDir ++ n) = Some n ->
  n ∈ omap (fun e => entry_name docDir (fst e)) files.
Proof.
  intros Hl He. induction files as [|[u g] files IH]; [discriminate|].
  cbn in Hl. cbn [omap list_omap fst].
  destruct (String.eqb_spec u (docDir ++ n)) as [->|_].
  - rewrite He. now left.
  - destruct (entry_name docDir u); [right|]; now apply IH.
Qed.

Lemma includes_char_free (s : string) (c : ascii) :
  Forall (fun a => Ascii.eqb a c = false) (list_ascii_of_string s) ->
  includes s (String c EmptyString) = false.
Proof.
  induction s as [|a s IH]; intros H; [reflexivity|].
  cbn [list_ascii_of_string] in H. apply Forall_cons in H as [Ha Hs].
  now rewrite includes_unfold, startsWith_char, Ha, (IH Hs).
Qed.

(** The final name of a draft is listed in the documents directory once a
    file is stored under it. *)
Lemma finalName_entry (docDir pdfName : string) :
  entry_name docDir (docDir ++ finalName pdfName) = Some (finalName pdfName)
  /\ endsWith (toLowerCase (finalName pdfName)) ".pdf" = true.
Proof.
  unfold finalName.
  set (stem := or_else (replace_outside_name_class pdfName) "Doc").
  assert (Hstem : Forall (fun c => in_name_class c = true) (list_ascii_of_string stem)).
  { unfold stem, or_else.
    destruct (truthy (replace_outside_name_class pdfName));
      [apply in_name_class_replaced|repeat constructor]. }
  split.
  - apply entry_name_app; [now destruct stem|].
    apply includes_char_free. rewrite list_ascii_of_string_app, Forall_app. split.
    + eapply Forall_impl; [exact Hstem|]. intros c Hc. cbv beta.
      destruct (Ascii.eqb_spec c "/") as [->|_]; [discriminate|reflexivity].
    + repeat constructor.
  - rewrite toLowerCase_app. apply endsWith_spec. now exists (toLowerCase stem).
Qed.

(** X10. After a conversion that succeeds, with the documents directory
    listed, the library shows a document under the draft's final name, at
    its place in the documents directory; the draft is cleared and the
    modal closed. *)
Theorem generatePdf_lists_document (dev : Device) (docDir : string) (st : State)
        (w : World) (encodings : list string) (tempUri : string) (rendered : FileData) :
  documentDirectory dev = Some docDir -> docDir <> EmptyString ->
  listFault w = None ->
  selectedImages st <> [] ->
  Forall2 (fun uri base64 => readAsStringAsync uri w = Ok base64)
          (selectedImages st) encodings ->
  printService w (htmlContent (map Spec.data_uri encodings)) = Ok (tempUri, rendered) ->
  let st' := fst (generatePdf dev st w) in
  (exists doc, doc ∈ pdfs st'
               /\ name doc = finalName (pdfName st)
               /\ uri doc = docDir ++ finalName (pdfName st))
  /\ filteredPdfs st' `sublist_of` pdfs st'
  /\ selectedImages st' = []
  /\ showDraftModal st' = false
  /\ isProcessing st' = false.
Proof.
  intros Hd Hne Hl Himg Hreads Hprint st'. subst st'.
  rewrite (generatePdf_converted dev st w encodings tempUri rendered Himg Hreads Hprint).
  cbn [fst]. set (w2 := with_fs _ _).
  assert (Hl2 : listFault w2 = None) by exact Hl.
  pose proof (loadLibrary_listed dev docDir true (setIsProcessing true st) w2 Hd Hne Hl2)
    as Eload. cbv zeta in Eload.
  set (sorted := Array_sort _ _) in Eload.
  assert (Ep : pdfs (loadLibrary dev true (setIsProcessing true st) w2) = sorted).
  { rewrite Eload. unfold applyFilter. now destruct (negb (truthy _)). }
  assert (Ef : filteredPdfs (loadLibrary dev true (setIsProcessing true st) w2)
               `sublist_of` sorted).
  { rewrite Eload. cbn [loadLibrary_finally filteredPdfs setIsRefreshing setIsLoadingLibrary].
    rewrite applyFilter_shown.
    destruct (truthy _); [apply List_filter_sublist|reflexivity]. }
  cbn [pdfs filteredPdfs selectedImages showDraftModal isProcessing
       setIsProcessing setSelectedImages setShowDraftModal].
  rewrite Ep. split; [|split; [exact Ef|repeat split]].
  destruct (finalName_entry docDir (pdfName st)) as [Hentry Hpdf].
  exists (Spec.entry dev docDir w2 (finalName (pdfName st))).
  destruct (entry_name_uri dev docDir (finalName (pdfName st)) w2) as (En & _ & Eu).
  split; [|split; [exact En|exact Eu]].
  unfold sorted. rewrite Array_sort_perm. apply list_elem_of_fmap_2.
  unfold Spec.pdf_entries. apply List_filter_elem_of. split; [|exact Hpdf].
  unfold Spec.listing. eapply listing_elem; [|exact Hentry].
  unfold w2. cbn [fs with_fs]. rewrite Hd. cbn [tpl]. apply lookup_store_eq.
Qed.

Lemma generatePdf_lists_document_witness :
  selectedImages (fst (generatePdf Sample.device Sample.draft Sample.draft_world)) = [].
Proof.
  assert (Hne : Sample.docDir <> EmptyString) by discriminate.
  assert (Himg : selectedImages Sample.draft <> []) by discriminate.
  assert (Hreads :
            Forall2 (fun uri base64 => readAsStringAsync uri Sample.draft_world = Ok base64)
                    (selectedImages Sample.draft)
                    ["/9j/4AAQSkZJRgABAQ"; "/9j/4BBRSkZJRgABAg"; "/9j/4CCSSkZJRgABAw"])
    by (repeat constructor).
  exact (proj1 (proj2 (proj2
    (generatePdf_lists_document Sample.device Sample.docDir Sample.draft
       Sample.draft_world _ _ _ eq_refl Hne eq_refl Himg Hreads eq_refl)))).
Defined.

(** X11. A conversion under a name the documents directory already
    holds writes over that document, adding no entry to the directory;
    under a new name it adds exactly one entry. Either way the stored
    content is the rendered one. *)
Theorem generatePdf_writes_one_entry (dev : Device) (st : State) (w : World)
        (encodings : list string) (tempUri : string) (rendered : FileData) :
  selectedImages st <> [] ->
  Forall2 (fun uri base64 => readAsStringAsync uri w = Ok base64)
          (selectedImages st) encodings ->
  printService w (htmlContent (map Spec.data_uri encodings)) = Ok (tempUri, rendered) ->
  let target := tpl (documentDirectory dev) ++ finalName (pdfName st) in
  let printed := store_file tempUri rendered (fs w) in
  let w' := snd (generatePdf dev st w) in
  (forall old, lookup_file target printed = Some old ->
               map fst (fs w') = map fst printed)
  /\ (lookup_file target printed = None ->
      map fst (fs w') = (map fst printed ++ [target])%list)
  /\ (data <$> lookup_file target (fs w') = Some (data rendered)).
Proof.
  intros Himg Hreads Hprint target printed w'. subst w'.
  rewrite (generatePdf_converted dev st w encodings tempUri rendered Himg Hreads Hprint).
  cbn [snd fs with_fs]. fold printed. fold target.
  split; [|split].
  - intros old Hold. now rewrite store_file_keys, Hold.
  - intros Hnone. now rewrite store_file_keys, Hnone.
  - now rewrite lookup_store_eq.
Qed.

Lemma generatePdf_writes_one_entry_witness :
  data <$> lookup_file "file:///data/documents/Holiday_2024.pdf"
             (fs (snd (generatePdf Sample.device Sample.draft Sample.draft_world)))
  = Some (htmlContent (map Spec.data_uri
            ["/9j/4AAQSkZJRgABAQ"; "/9j/4BBRSkZJRgABAg"; "/9j/4CCSSkZJRgABAw"])).
Proof.
  assert (Himg : selectedImages Sample.draft <> []) by discriminate.
  assert (Hreads :
            Forall2 (fun uri base64 => readAsStringAsync uri Sample.draft_world = Ok base64)
                    (selectedImages Sample.draft)
                    ["/9j/4AAQSkZJRgABAQ"; "/9j/4BBRSkZJRgABAg"; "/9j/4CCSSkZJRgABAw"])
    by (repeat constructor).
  exact (proj2 (proj2
    (generatePdf_writes_one_entry Sample.device Sample.draft Sample.draft_world
       _ _ _ Himg Hreads eq_refl))).
Defined.

(** ** Renaming to a free name *)

Lemma loadLibrary_rename_dialog (dev : Device) (showSpinner : bool) (st : State)
      (w : World) :
  isRenameModalVisible (loadLibrary dev showSpinner st w) = isRenameModalVisible st.
Proof.
  unfold loadLibrary.
  destruct (documentDirectory dev) as [[|c d]|]; cbn [truthy negb];
    [now destruct showSpinner| |now destruct showSpinner].
  destruct (readDirectoryAsync _ w); [|now destruct showSpinner].
  destruct (Promise_all _ _); [|now destruct showSpinner].
  unfold applyFilter. now destruct (negb (truthy _)), showSpinner.
Qed.

(** X12. A rename to a name that is free moves the file: the new name
    holds the content and size of the original, the original is gone, every
    other file is as it was, no alert is raised and the dialog closes. *)
Theorem confirmRename_moves (dev : Device) (st : State) (w : World)
        (doc : PdfDoc) (source : FileData) :
  renamingItem st = Some doc ->
  trim (newFileName st) <> EmptyString ->
  let newUri := tpl (documentDirectory dev) ++ trim (newFileName st) ++ ".pdf" in
  lookup_file (uri doc) (fs w) = Some source ->
  lookup_file newUri (fs w) = None ->
  let st' := fst (confirmRename dev st w) in
  let w' := snd (confirmRename dev st w) in
  alerts w' = alerts w
  /\ lookup_file (uri doc) (fs w') = None
  /\ (exists copy, lookup_file newUri (fs w') = Some copy
                   /\ data copy = data source
                   /\ Expo.size copy = Expo.size source)
  /\ (forall u, u <> uri doc -> u <> newUri ->
                lookup_file u (fs w') = lookup_file u (fs w))
  /\ isRenameModalVisible st' = false.
Proof.
  intros Hdoc Hname newUri Hsrc Hdst st' w'.
  assert (Hne : uri doc <> newUri) by congruence.
  subst st' w'. unfold confirmRename. rewrite Hdoc.
  destruct (trim (newFileName st)) as [|c v] eqn:Ev; [congruence|].
  cbn [truthy negb]. fold newUri.
  unfold copyAsync. rewrite Hsrc. unfold deleteAsync. cbn [fs with_fs].
  rewrite lookup_store_ne, Hsrc by congruence. cbn [fst snd fs with_fs alerts].
  split; [reflexivity|]. split; [apply lookup_remove_eq|]. split; [|split].
  - eexists. rewrite lookup_remove_ne by assumption.
    split; [apply lookup_store_eq|split; reflexivity].
  - intros u Hu Hn. rewrite lookup_remove_ne by congruence.
    now rewrite lookup_store_ne by congruence.
  - now rewrite loadLibrary_rename_dialog.
Qed.

Lemma confirmRename_moves_witness :
  let st := setNewFileName "Invoice" Sample.renaming in
  lookup_file (uri Sample.doc1)
    (fs (snd (confirmRename Sample.device st Sample.library_world))) = None.
Proof.
  intros st.
  assert (Hname : trim (newFileName st) <> EmptyString) by discriminate.
  exact (proj1 (proj2
    (confirmRename_moves Sample.device st Sample.library_world Sample.doc1
       (Sample.file "JVBERi0xLjQKJcfs" 203776 1700000100)
       eq_refl Hname eq_refl eq_refl))).
Defined.

(** X13. Where the new name is free and differs from the old one, the
    rename of the sibling revision and the rename of the library screen
    leave the same files; with the original present neither raises an
    alert. *)
Theorem renames_agree_on_free_names (dev : Device) (st : State) (sst : Sibling.State)
        (w : World) (doc : PdfDoc) :
  renamingItem st = Some doc ->
  Sibling.editingValue sst = newFileName st ->
  let value := trim (newFileName st) in
  let newUri := tpl (documentDirectory dev) ++ value ++ ".pdf" in
  value <> EmptyString ->
  value <> replace (name doc) ".pdf" EmptyString ->
  infoFault w newUri = None ->
  lookup_file newUri (fs w) = None ->
  fs (snd (Sibling.saveRename dev doc sst w)) = fs (snd (confirmRename dev st w))
  /\ (forall source, lookup_file (uri doc) (fs w) = Some source ->
        alerts (snd (Sibling.saveRename dev doc sst w)) = alerts w
        /\ alerts (snd (confirmRename dev st w)) = alerts w).
Proof.
  intros Hdoc Hval value newUri Hv Hsame Hi Hfree.
  unfold Sibling.saveRename, confirmRename. rewrite Hdoc, Hval.
  fold value. fold newUri.
  destruct value as [|c v] eqn:Ev; [congruence|]. cbn [truthy negb orb].
  apply String.eqb_neq in Hsame. rewrite Hsame.
  unfold getInfoAsync. rewrite Hi, Hfree.
  unfold copyAsync, deleteAsync.
  destruct (lookup_file (uri doc) (fs w)) as [source|] eqn:Hsrc.
  - cbn [fs with_fs].
    assert (Hne : newUri <> uri doc) by congruence.
    rewrite lookup_store_ne, Hsrc by assumption.
    cbn [snd fs with_fs alerts]. split; [reflexivity|]. now intros _ _.
  - cbn [snd fs Alert_alert]. split; [reflexivity|]. discriminate.
Qed.

Lemma renames_agree_on_free_names_witness :
  let st := setNewFileName "Invoice" Sample.renaming in
  let sst := Sibling.setEditingValue "Invoice" Sample.editing in
  fs (snd (Sibling.saveRename Sample.device Sample.doc1 sst Sample.library_world))
  = fs (snd (confirmRename Sample.device st Sample.library_world)).
Proof.
  intros st sst.
  assert (Hv : trim (newFileName st) <> EmptyString) by discriminate.
  assert (Hsame : trim (newFileName st) <> replace (name Sample.doc1) ".pdf" EmptyString)
    by discriminate.
  exact (proj1 (renames_agree_on_free_names Sample.device st sst Sample.library_world
                  Sample.doc1 eq_refl eq_refl Hv Hsame eq_refl eq_refl)).
Defined.

(** ** The settings screen *)

Lemma addSizes_total (docDir : string) (w : World) (files : list string) (total : N) :
  (forall f, f ∈ files -> infoFault w (docDir ++ f) = None) ->
  Settings.addSizes docDir files total w =
  Ok (foldr (fun f acc => (Spec.size_of docDir w f + acc)%N) 0%N files + total)%N.
Proof.
  revert total. induction files as [|f files IH]; intros total H.
  - reflexivity.
  - cbn [Settings.addSizes foldr]. unfold getInfoAsync. rewrite (H f) by now left.
    unfold Spec.size_of at 1.
    destruct (lookup_file (docDir ++ f) (fs w)) as [file|];
      (rewrite IH by (intros g Hg; apply H; now right));
      apply (f_equal Ok); lia.
Qed.

Lemma addSizes_fault (docDir : string) (w : World) (files : list string) (total : N)
      (f m : string) :
  f ∈ files -> infoFault w (docDir ++ f) = Some m ->
  exists m', Settings.addSizes docDir files total w = Throw m'.
Proof.
  revert total. induction files as [|g files IH]; intros total Hin Hf;
    [inversion Hin|].
  cbn. unfold getInfoAsync.
  destruct (infoFault w (docDir ++ g)) as [mg|] eqn:Eg; [now exists mg|].
  apply elem_of_cons in Hin as [->|Hin]; [congruence|].
  destruct (lookup_file (docDir ++ g) (fs w)); now apply IH.
Qed.

(** X14. On the settings screen, with the documents directory listed,
    the document count is the number of documents the library screen
    shows; the storage label is the total size of the .pdf files in MB with
    two decimals when every metadata read succeeds, and stays as it was,
    beside the new count, when one of them fails. *)
Theorem calculateStorage_matches_library (dev : Device) (docDir : string)
        (st : Settings.State) (lib : State) (w : World) :
  documentDirectory dev = Some docDir -> docDir <> EmptyString ->
  listFault w = None ->
  let st' := Settings.calculateStorage dev st w in
  Settings.docCount st' = length (Spec.refresh dev w lib)
  /\ ((forall f, f ∈ Spec.pdf_entries docDir w -> infoFault w (docDir ++ f) = None) ->
      Settings.storageSize st' =
      toFixed2 (inject_Z (Z.of_N (Spec.total_size docDir w)) / (1024 * 1024)) ++ " MB")
  /\ (forall f m, f ∈ Spec.pdf_entries docDir w ->
                  infoFault w (docDir ++ f) = Some m ->
                  Settings.storageSize st' = Settings.storageSize st).
Proof.
  intros Hd Hne Hl st'. subst st'. unfold Settings.calculateStorage. rewrite Hd.
  destruct docDir as [|c d] eqn:Edir; [congruence|]. cbn [truthy negb].
  unfold readDirectoryAsync. rewrite Hl.
  change (List.filter _ (omap _ (fs w))) with (Spec.pdf_entries (String c d) w).
  split; [|split].
  - unfold Spec.refresh.
    rewrite (loadLibrary_pdfs dev (String c d) false lib w Hd ltac:(discriminate) Hl).
    rewrite Array_sort_length, length_map.
    now destruct (Settings.addSizes _ _ _ _).
  - intros Hok. rewrite (addSizes_total _ _ _ _ Hok). cbn [Settings.storageSize Settings.setStorageSize].
    unfold Spec.total_size. now rewrite N.add_0_r.
  - intros f m Hin Hf.
    destruct (addSizes_fault (String c d) w (Spec.pdf_entries (String c d) w) 0 f m Hin Hf)
      as [m' ->]. reflexivity.
Qed.

Lemma calculateStorage_matches_library_witness :
  Settings.docCount (Settings.calculateStorage Sample.device Sample.settings Sample.mixed_world)
  = length (Spec.refresh Sample.device Sample.mixed_world Sample.renaming).
Proof.
  assert (Hne : Sample.docDir <> EmptyString) by discriminate.
  exact (proj1 (calculateStorage_matches_library Sample.device Sample.docDir
                  Sample.settings Sample.renaming Sample.mixed_world
                  eq_refl Hne eq_refl)).
Defined.

Lemma lookup_file_key (u : string) (l : list (string * FileData)) :
  u ∈ map fst l -> is_Some (lookup_file u l).
Proof.
  induction l as [|[v g] l IH]; intros H; [inversion H|]. cbn in H |- *.
  destruct (String.eqb_spec v u) as [->|Hne]; [now eexists|].
  apply elem_of_cons in H as [->|H]; [contradiction|]. now apply IH.
Qed.

Lemma listing_keys (docDir n : string) (l : list (string * FileData)) :
  n ∈ omap (fun e => entry_name docDir (fst e)) l -> (docDir ++ n) ∈ map fst l.
Proof.
  induction l as [|[u g] l IH]; intros H; [inversion H|].
  cbn [omap list_omap fst] in H. cbn [map fst].
  destruct (entry_name docDir u) as [m|] eqn:E.
  - apply elem_of_cons in H as [->|H].
    + apply entry_name_Some in E as ->. now left.
    + right. now apply IH.
  - right. now apply IH.
Qed.

Lemma listing_NoDup (docDir : string) (l : list (string * FileData)) :
  NoDup (map fst l) -> NoDup (omap (fun e => entry_name docDir (fst e)) l).
Proof.
  induction l as [|[u g] l IH]; intros H; [constructor|].
  cbn [map fst] in H. apply NoDup_cons in H as [Hu Hl].
  cbn [omap list_omap fst].
  destruct (entry_name docDir u) as [m|] eqn:E; [|now apply IH].
  apply NoDup_cons. split; [|now apply IH].
  intros Hin%listing_keys. apply entry_name_Some in E as ->. contradiction.
Qed.

Lemma List_filter_filter {A : Type} (p q : A -> bool) (l : list A) :
  List.filter p (List.filter q l) = List.filter (fun x => q x && p x) l.
Proof.
  induction l as [|x l IH]; [reflexivity|]. cbn.
  destruct (q x); cbn; rewrite IH; reflexivity.
Qed.

(** The Delete All loop over names that are listed once each: it ends
    normally, no .pdf entry named in [files] is left, and the files it does
    not name are as they were. *)
Lemma deleteAll_clears (docDir : string) (files : list string) (w : World) :
  NoDup files ->
  (forall f, f ∈ files -> endsWith (toLowerCase f) ".pdf" = true ->
             is_Some (lookup_file (docDir ++ f) (fs w))) ->
  exists w',
    Settings.deleteAll docDir files w = (Ok tt, w')
    /\ alerts w' = alerts w /\ listFault w' = listFault w
    /\ clock w' = clock w /\ infoFault w' = infoFault w
    /\ Spec.pdf_entries docDir w' =
       List.filter (fun n => negb (existsb (String.eqb n) files))
                   (Spec.pdf_entries docDir w)
    /\ (forall u, (forall f, f ∈ files -> endsWith (toLowerCase f) ".pdf" = true ->
                             u <> docDir ++ f) ->
                  lookup_file u (fs w') = lookup_file u (fs w)).
Proof.
  revert w. induction files as [|f files IH]; intros w Hnd Hex.
  - exists w. repeat split. cbn. induction (Spec.pdf_entries docDir w) as [|n l IHl];
      [reflexivity|]. cbn. now rewrite <- IHl.
  - apply NoDup_cons in Hnd as [Hf Hnd]. cbn [Settings.deleteAll].
    destruct (endsWith (toLowerCase f) ".pdf") eqn:Epdf.
    + destruct (Hex f ltac:(now left) Epdf) as [file Hfile].
      unfold deleteAsync. rewrite Hfile.
      set (w1 := with_fs w (remove_file (docDir ++ f) (fs w))).
      destruct (IH w1 Hnd) as (w' & E & Ha & Hl & Hc & Hi & Hp & Hk).
      { intros g Hg Hgp. unfold w1. cbn [fs with_fs].
        rewrite lookup_remove_ne; [apply Hex; [now right|exact Hgp]|].
        intros Eg%append_cancel. subst g. contradiction. }
      exists w'. split; [exact E|]. repeat (split; [assumption|]). split.
      * rewrite Hp, (pdf_entries_remove docDir f w w1 eq_refl), List_filter_filter.
        apply filter_ext. intros n. cbn [existsb]. now rewrite negb_orb.
      * intros u Hu. rewrite Hk.
        -- unfold w1. cbn [fs with_fs]. apply lookup_remove_ne.
           intros E'. symmetry in E'. revert E'. apply Hu; [now left|exact Epdf].
        -- intros g Hg Hgp. apply Hu; [now right|exact Hgp].
    + destruct (IH w Hnd) as (w' & E & Ha & Hl & Hc & Hi & Hp & Hk).
      { intros g Hg. apply Hex. now right. }
      exists w'. split; [exact E|]. repeat (split; [assumption|]). split.
      * rewrite Hp. apply filter_ext_in. intros n Hn. cbn [existsb].
        destruct (String.eqb_spec n f) as [->|_]; [|reflexivity].
        apply filter_In in Hn as [_ Hn]. congruence.
      * intros u Hu. apply Hk. intros g Hg Hgp. apply Hu; [now right|exact Hgp].
Qed.

(** X15. Clearing the library after the confirmation, in a documents
    directory that can be listed: no .pdf entry is left, the files that are
    no .pdf entries are as they were, the settings show no document and
    0.00 MB, the library screen's next refresh is empty, and the success
    alert follows the confirmation. *)
Theorem handleClearLibrary_clears (dev : Device) (docDir : string)
        (st : Settings.State) (lib : State) (w : World) :
  documentDirectory dev = Some docDir -> docDir <> EmptyString ->
  listFault w = None ->
  NoDup (map fst (fs w)) ->
  let st' := fst (Settings.handleClearLibrary dev true st w) in
  let w' := snd (Settings.handleClearLibrary dev true st w) in
  Spec.pdf_entries docDir w' = []
  /\ (forall u, (forall f, f ∈ Spec.pdf_entries docDir w -> u <> docDir ++ f) ->
                lookup_file u (fs w') = lookup_file u (fs w))
  /\ Settings.docCount st' = 0
  /\ Settings.storageSize st' = "0.00 MB"
  /\ Spec.refresh dev w' lib = []
  /\ alerts w' =
     (alerts w
      ++ [("Clear All Documents",
           "This will permanently delete all generated PDF files. This action cannot be undone.");
          ("Success", "Library has been cleared.")])%list.
Proof.
  intros Hd Hne Hl Hnd st' w'. subst st' w'.
  unfold Settings.handleClearLibrary. rewrite Hd.
  destruct docDir as [|c d] eqn:Edir; [congruence|]. rewrite <- Edir in *.
  replace (negb (truthy docDir)) with false by now rewrite Edir.
  set (w0 := Alert_alert _ _ w).
  unfold readDirectoryAsync. replace (listFault w0) with (@None string) by now rewrite <- Hl.
  change (omap _ (fs w0)) with (Spec.listing docDir w).
  destruct (deleteAll_clears docDir (Spec.listing docDir w) w0) as
    (w1 & -> & Ha & Hl1 & Hc & Hi & Hp & Hk).
  { now apply listing_NoDup. }
  { intros f Hf _. apply lookup_file_key. now apply listing_keys. }
  assert (Hempty : Spec.pdf_entries docDir w1 = []).
  { rewrite Hp. change (Spec.pdf_entries docDir w0) with (Spec.pdf_entries docDir w).
    rewrite (filter_ext_in _ (fun _ => false)).
    - now induction (Spec.pdf_entries docDir w).
    - intros n Hn. apply filter_In in Hn as [Hn _].
      apply negb_false_iff, existsb_exists. exists n.
      split; [exact Hn|apply String.eqb_refl]. }
  cbn [fst snd].
  assert (Hcalc : Settings.calculateStorage dev st w1 =
                  Settings.setStorageSize "0.00 MB" (Settings.setDocCount 0 st)).
  { unfold Settings.calculateStorage. rewrite Hd, Edir. cbn [truthy negb].
    rewrite <- Edir. unfold readDirectoryAsync.
    replace (listFault w1) with (@None string) by now rewrite Hl1.
    change (List.filter _ (omap _ (fs w1))) with (Spec.pdf_entries docDir w1).
    rewrite Hempty. reflexivity. }
  split; [exact Hempty|]. split; [|split; [|split; [|split]]].
  - intros u Hu. rewrite Hk; [reflexivity|].
    intros f Hf Hpdf. apply Hu. unfold Spec.pdf_entries.
    apply List_filter_elem_of. now split.
  - now rewrite Hcalc.
  - now rewrite Hcalc.
  - unfold Spec.refresh.
    rewrite (loadLibrary_pdfs dev docDir false lib (Alert_alert _ _ w1) Hd Hne)
      by (cbn [listFault Alert_alert]; now rewrite Hl1).
    change (Spec.pdf_entries docDir (Alert_alert _ _ w1))
      with (Spec.pdf_entries docDir w1).
    now rewrite Hempty.
  - cbn [alerts Alert_alert]. rewrite Ha. unfold w0. cbn [alerts Alert_alert].
    now rewrite <- app_assoc.
Qed.

Lemma handleClearLibrary_clears_witness :
  Spec.pdf_entries Sample.docDir
    (snd (Settings.handleClearLibrary Sample.device true Sample.settings
            Sample.mixed_world)) = [].
Proof.
  assert (Hne : Sample.docDir <> EmptyString) by discriminate.
  assert (Hnd : NoDup (map fst (fs Sample.mixed_world))).
  { apply (bool_decide_unpack _). vm_compute. exact I. }
  exact (proj1 (handleClearLibrary_clears Sample.device Sample.docDir Sample.settings
                  Sample.renaming Sample.mixed_world eq_refl Hne eq_refl Hnd)).
Defined.

(** * The context menu of the sibling revision *)

(** X16. In the sibling revision the context menu opened by a press inside the
    window is placed so that a box 200 wide and 160 high at its position does
    not pass the right or the bottom edge of the window; in a window at least
    420 wide it does not pass the left edge, and in one at least 420 high it
    does not pass the top edge. *)
Theorem showContextMenu_inside (dev : Device) (SCREEN_HEIGHT pageX pageY : Q)
        (doc : PdfDoc) :
  (0 <= pageX)%Q -> (pageX <= SCREEN_WIDTH dev)%Q ->
  (0 <= pageY)%Q -> (pageY <= SCREEN_HEIGHT)%Q ->
  let m := Sibling.showContextMenu dev SCREEN_HEIGHT pageX pageY doc in
  Sibling.visible m = true
  /\ Sibling.item m = Some doc
  /\ (Sibling.x m + 200 <= SCREEN_WIDTH dev)%Q
  /\ (Sibling.y m + 160 <= SCREEN_HEIGHT)%Q
  /\ ((420 <= SCREEN_WIDTH dev)%Q -> (0 <= Sibling.x m)%Q)
  /\ ((420 <= SCREEN_HEIGHT)%Q -> (0 <= Sibling.y m)%Q).
Proof.
  intros Hx0 Hx1 Hy0 Hy1 m. subst m. unfold Sibling.showContextMenu.
  cbn [Sibling.visible Sibling.item Sibling.x Sibling.y].
  split; [reflexivity|]. split; [reflexivity|].
  destruct (Qle_bool (pageX + 200) (SCREEN_WIDTH dev - 20)) eqn:Ex;
    destruct (Qle_bool (pageY + 160) (SCREEN_HEIGHT - 100)) eqn:Ey;
    cbn [negb];
    try (apply Qle_bool_iff in Ex);
    try (apply Qle_bool_iff in Ey);
    try (assert (Fx : (SCREEN_WIDTH dev - 20 < pageX + 200)%Q)
          by (apply Qnot_le_lt; intros F; apply Qle_bool_iff in F; congruence));
    try (assert (Fy : (SCREEN_HEIGHT - 100 < pageY + 160)%Q)
          by (apply Qnot_le_lt; intros F; apply Qle_bool_iff in F; congruence));
    repeat split; intros; lra.
Qed.

Lemma showContextMenu_inside_witness :
  (Sibling.x (Sibling.showContextMenu Sample.device 800 300 700 Sample.doc1) + 200
   <= SCREEN_WIDTH Sample.device)%Q.
Proof.
  refine (proj1 (proj2 (proj2
    (showContextMenu_inside Sample.device 800 300 700 Sample.doc1 _ _ _ _))));
    vm_compute; discriminate.
Defined.
